(** * A banking backend: session validation and the account ledger

    Shallow embedding of three TypeScript modules:
      - [src/server/trpc.ts]            ([createContext], [protectedProcedure])
      - [src/server/routers/auth.ts]    ([signup], [login])
      - [src/server/routers/account.ts] ([createAccount], [fundAccount],
                                         [getTransactions], [isValidCardNumber])

    The relational store is a record of row lists, one list per table, in
    insertion order; [.get()] is the first matching row.  Every awaited
    store statement is a promise that may reject, so handlers run in a
    small state-and-exception monad whose state carries the store and the
    schedule of store failures. *)

From Stdlib Require Import ZArith List String Ascii Bool Arith Lia.
From Stdlib Require Import Permutation Sorted.
From Stdlib Require DecimalString.
Import ListNotations.

Set Implicit Arguments.

(* ================================================================== *)
(** ** Card checksum ([isValidCardNumber], account.ts 120-136)         *)
(* ================================================================== *)

(** [\d]: the ten characters '0'..'9'. *)
Definition isDigit (c : ascii) : bool :=
  (48 <=? nat_of_ascii c) && (nat_of_ascii c <=? 57).

(** [cardNumber.replace(/\D/g, "")]: drop every character that is not a
    decimal digit. *)
Fixpoint stripNonDigits (s : string) : list ascii :=
  match s with
  | EmptyString => []
  | String c rest =>
      if isDigit c then c :: stripNonDigits rest else stripNonDigits rest
  end.

(** [parseInt(digits[i], 10)] on a single digit character. *)
Definition parseDigit (c : ascii) : nat := nat_of_ascii c - 48.

(** One iteration of the [for] loop; the loop state is
    [(sum, shouldDouble)]. *)
Definition luhnStep (st : nat * bool) (c : ascii) : nat * bool :=
  let '(sum, shouldDouble) := st in
  let digit := parseDigit c in
  let digit :=
    if shouldDouble
    then (let d2 := digit * 2 in if 9 <? d2 then d2 - 9 else d2)
    else digit in
  (sum + digit, negb shouldDouble).

(** The loop runs [i] from [digits.length - 1] down to [0], that is, over
    the digits from right to left. *)
Definition luhnLoop (digits : list ascii) : nat * bool :=
  fold_left luhnStep (rev digits) (0, false).

Definition isValidCardNumber (cardNumber : string) : bool :=
  let digits := stripNonDigits cardNumber in
  let '(sum, _) := luhnLoop digits in
  sum mod 10 =? 0.

(** The Luhn checksum as it is usually stated, for comparison with the
    loop above: number the digits from the right starting at position 0,
    replace every digit at an odd position by the sum of the decimal
    digits of its double, add everything up; the number is valid when
    the total is a multiple of ten. *)
Definition decimalDigitSum (n : nat) : nat := n / 10 + n mod 10.

Fixpoint luhnTotalFrom (pos : nat) (digitsFromRight : list nat) : nat :=
  match digitsFromRight with
  | [] => 0
  | d :: rest =>
      (if Nat.odd pos then decimalDigitSum (2 * d) else d)
      + luhnTotalFrom (S pos) rest
  end.

Definition luhn_reference (cardNumber : string) : bool :=
  luhnTotalFrom 0 (rev (map parseDigit (stripNonDigits cardNumber))) mod 10 =? 0.

(* ================================================================== *)
(** ** Errors and outcomes                                             *)
(* ================================================================== *)

Inductive TRPCCode :=
| UNAUTHORIZED | FORBIDDEN | CONFLICT | NOT_FOUND | BAD_REQUEST
| INTERNAL_SERVER_ERROR.

(** What a handler can throw: a [TRPCError] built by the code itself, the
    rejection of a store statement, or the exception of [jwt.verify]. *)
Inductive Exn :=
| TRPCError (code : TRPCCode) (message : string)
| StoreFailure
| JwtFailure.

(** A call returns, throws, or is still inside the account-number retry
    loop when the supply of random candidates ends. *)
Inductive Outcome (A : Type) :=
| Returned (a : A)
| Thrown (e : Exn)
| Spinning.
Arguments Thrown {A} e.
Arguments Spinning {A}.

Inductive AccountType := checking | savings.
Inductive FundingType := card | bank.

Definition accountTypeName (t : AccountType) : string :=
  match t with checking => "checking" | savings => "savings" end.
Definition fundingTypeName (t : FundingType) : string :=
  match t with card => "card" | bank => "bank" end.

Definition AccountType_eqb (a b : AccountType) : bool :=
  match a, b with
  | checking, checking | savings, savings => true
  | _, _ => false
  end.

(** [cookieHeader.split("; ")]; [piece] is the part of the current
    cookie read so far. *)
Fixpoint splitCookies (cookieHeader : string) (piece : string) : list string :=
  match cookieHeader with
  | EmptyString => [piece]
  | String c rest =>
      match rest with
      | String c' rest' =>
          if Ascii.eqb c ";" && Ascii.eqb c' " "
          then piece :: splitCookies rest' EmptyString
          else splitCookies rest (piece ++ String c EmptyString)
      | EmptyString => splitCookies rest (piece ++ String c EmptyString)
      end
  end.

(** [const [key, ...val] = c.split("="); return [key, val.join("=")]]:
    the key is what stands before the first [=], the value is the rest. *)
Fixpoint cookieEntry (c : string) : string * string :=
  match c with
  | EmptyString => (EmptyString, EmptyString)
  | String ch rest =>
      if Ascii.eqb ch "="
      then (EmptyString, rest)
      else let '(key, val) := cookieEntry rest in (String ch key, val)
  end.

Definition nonEmpty (c : string) : bool :=
  match c with EmptyString => false | _ => true end.

(** [Object.fromEntries(...).session]: of several [session] cookies the
    last one counts. *)
Definition cookieSession (cookieHeader : string) : option string :=
  fold_left
    (fun found entry =>
       if String.eqb (fst entry) "session" then Some (snd entry) else found)
    (map cookieEntry (filter nonEmpty (splitCookies cookieHeader EmptyString)))
    None.

(** [token] is falsy when it is [undefined] or the empty string. *)
Definition truthy (token : option string) : option string :=
  match token with
  | Some EmptyString => None
  | other => other
  end.

Definition earlyExpiryWindow : Z := 60000.

(** The store numbers new rows one past the largest id of the table. *)
Definition nextId (ids : list Z) : Z := 1 + fold_right Z.max 0%Z ids.

(** What the routers take from outside: the column type of money amounts
    and the store's own addition on it ([sql`${accounts.balance} +
    ${amount}`]; the schema module is not part of the sources), the
    validator's test [z.number().positive()], token signing and
    verification (verification reads the clock: a token carries its own
    expiry), password hashing and comparison, and
    [d.setDate(d.getDate() + 7)], seven days later in the server's local
    calendar. *)
Class Collaborators := {
  num : Type;
  num_add : num -> num -> num;
  num_zero : num;
  num_positive : num -> bool;
  jwt_sign : Z -> Z -> string;
  jwt_verify : string -> Z -> option Z;
  bcrypt_hash : string -> string;
  bcrypt_compare : string -> string -> bool;
  addSevenDays : Z -> Z
}.

Section Backend.

Context {C : Collaborators}.

(* ------------------------------------------------------------------ *)
(** *** Rows and the store                                             *)
(* ------------------------------------------------------------------ *)

Record Profile := {
  firstName : string; lastName : string; phoneNumber : string;
  dateOfBirth : string; address : string; city : string;
  state : string; zipCode : string
}.

Record User := {
  user_id : Z; email : string; password : string; ssn : string;
  profile : Profile
}.

(** Times are milliseconds since the epoch: the stored ISO strings are
    written by [toISOString] and read back by [new Date(..).getTime()]. *)
Record Session := {
  session_userId : Z; token : string; expiresAt : Z
}.

Record Account := {
  account_id : Z; account_userId : Z; accountNumber : string;
  accountType : AccountType; balance : num; status : string;
  account_createdAt : Z
}.

(** [createdAt] and [processedAt] are times like [expiresAt]; the order
    of the stored strings is the order of the times. *)
Record Transaction := {
  transaction_id : Z; accountId : Z; type : string; amount : num;
  description : string; transaction_status : string;
  createdAt : Z; processedAt : Z
}.

Record Store := {
  users : list User;
  sessions : list Session;
  accounts : list Account;
  transactions : list Transaction
}.

Definition set_users (s : Store) (l : list User) : Store :=
  {| users := l; sessions := sessions s;
     accounts := accounts s; transactions := transactions s |}.
Definition set_sessions (s : Store) (l : list Session) : Store :=
  {| users := users s; sessions := l;
     accounts := accounts s; transactions := transactions s |}.
Definition set_accounts (s : Store) (l : list Account) : Store :=
  {| users := users s; sessions := sessions s;
     accounts := l; transactions := transactions s |}.
Definition set_transactions (s : Store) (l : list Transaction) : Store :=
  {| users := users s; sessions := sessions s;
     accounts := accounts s; transactions := l |}.

(* ------------------------------------------------------------------ *)
(** *** The handler monad                                              *)
(* ------------------------------------------------------------------ *)

(** [faults] is consumed one flag per awaited store statement, in the
    order the statements are issued; [true] makes that statement reject.
    Once the list is exhausted the store no longer fails. *)
Record World := { db : Store; faults : list bool }.

Definition M (A : Type) : Type := World -> Outcome A * World.

Definition ret {A} (a : A) : M A := fun w => (Returned a, w).

Definition throw {A} (e : Exn) : M A := fun w => (Thrown e, w).

Definition spin {A} : M A := fun w => (Spinning, w).

Definition bind {A B} (m : M A) (k : A -> M B) : M B :=
  fun w =>
    match m w with
    | (Returned a, w') => k a w'
    | (Thrown e, w') => (Thrown e, w')
    | (Spinning, w') => (Spinning, w')
    end.

(** [try { m } catch (error) { h error }]: what [m] wrote to the store
    before it threw stays written. *)
Definition tryCatch {A} (m : M A) (h : Exn -> M A) : M A :=
  fun w =>
    match m w with
    | (Thrown e, w') => h e w'
    | other => other
    end.

(** One awaited store statement: a query returns a value, a write
    returns the new store. *)
Definition await {A} (stmt : Store -> A * Store) : M A :=
  fun w =>
    match faults w with
    | true :: later => (Thrown StoreFailure, {| db := db w; faults := later |})
    | false :: later =>
        let '(a, s) := stmt (db w) in (Returned a, {| db := s; faults := later |})
    | [] =>
        let '(a, s) := stmt (db w) in (Returned a, {| db := s; faults := [] |})
    end.

Definition query {A} (q : Store -> A) : M A := await (fun s => (q s, s)).
Definition exec (u : Store -> Store) : M unit := await (fun s => (tt, u s)).

Notation "x <- m ;; k" := (bind m (fun x => k))
  (at level 61, m at next level, right associativity).
Notation "m ;;; k" := (bind m (fun _ => k))
  (at level 61, right associativity).

(* ------------------------------------------------------------------ *)
(** *** Request authentication (trpc.ts)                               *)
(* ------------------------------------------------------------------ *)

(** The context a procedure sees; the transport objects [req] and [res]
    play no part in what follows. *)
Record Context := { user : option User }.

Definition sessionByToken (t : string) (s : Store) : option Session :=
  find (fun r => String.eqb (token r) t) (sessions s).

Definition deleteSessionsByToken (t : string) (s : Store) : Store :=
  set_sessions s (filter (fun r => negb (String.eqb (token r) t)) (sessions s)).

Definition userById (i : Z) (s : Store) : option User :=
  find (fun u => Z.eqb (user_id u) i) (users s).

(** The body of the [try] block of [createContext] (lines 44-66); its
    value is the final content of the variable [user]. *)
Definition validateSession (now : Z) (tok : string) : M (option User) :=
  match jwt_verify tok now with
  | None => throw JwtFailure
  | Some decoded_userId =>
      session <- query (sessionByToken tok) ;;
      match session with
      | Some session =>
          let expiresAtMs := expiresAt session in
          if (expiresAtMs - now <=? earlyExpiryWindow)%Z then
            exec (deleteSessionsByToken tok) ;;;
            throw (TRPCError UNAUTHORIZED "Session expired")
          else if (expiresAtMs >? now)%Z then
            query (userById decoded_userId)
          else ret None
      | None => ret None
      end
  end.

(** [createContext] on the request's cookie header; [now] is the value
    of [Date.now()]. *)
Definition createContext (now : Z) (cookieHeader : string) : M Context :=
  let token := cookieSession cookieHeader in
  user <- match truthy token with
          | Some tok =>
              tryCatch (validateSession now tok)
                       (fun _error => ret None)
          | None => ret None
          end ;;
  ret {| user := user |}.

Definition protectedProcedure {A} (ctx : Context) (next : User -> M A) : M A :=
  match user ctx with
  | None => throw (TRPCError UNAUTHORIZED "UNAUTHORIZED")
  | Some u => next u
  end.

(* ------------------------------------------------------------------ *)
(** *** Signup and login (routers/auth.ts)                             *)
(* ------------------------------------------------------------------ *)

Record SignupInput := {
  in_email : string; in_password : string; in_ssn : string;
  in_profile : Profile
}.

(** [{ ...user, password: undefined }] *)
Record PublicUser := {
  pub_id : Z; pub_email : string; pub_ssn : string; pub_profile : Profile
}.

Definition omitPassword (u : User) : PublicUser :=
  {| pub_id := user_id u; pub_email := email u; pub_ssn := ssn u;
     pub_profile := profile u |}.

Record AuthResult := { auth_user : PublicUser; auth_token : string }.

Definition userByEmail (e : string) (s : Store) : option User :=
  find (fun u => String.eqb (email u) e) (users s).

Definition insertUser (input : SignupInput) (hashedPassword hashedSSN : string)
    (s : Store) : Store :=
  set_users s
    (users s ++
       [{| user_id := nextId (map user_id (users s));
           email := in_email input; password := hashedPassword;
           ssn := hashedSSN; profile := in_profile input |}]).

Definition insertSession (r : Session) (s : Store) : Store :=
  set_sessions s (sessions s ++ [r]).

Definition deleteSessionsByUser (uid : Z) (s : Store) : Store :=
  set_sessions s
    (filter (fun r => negb (Z.eqb (session_userId r) uid)) (sessions s)).

(** The body of the [signup] mutation; [input] has passed the schema. *)
Definition signup (now : Z) (input : SignupInput) : M AuthResult :=
  existingUser <- query (userByEmail (in_email input)) ;;
  match existingUser with
  | Some _ => throw (TRPCError CONFLICT "User already exists")
  | None =>
      let hashedPassword := bcrypt_hash (in_password input) in
      let hashedSSN := bcrypt_hash (in_ssn input) in
      exec (insertUser input hashedPassword hashedSSN) ;;;
      user <- query (userByEmail (in_email input)) ;;
      match user with
      | None => throw (TRPCError INTERNAL_SERVER_ERROR "Failed to create user")
      | Some user =>
          let token := jwt_sign (user_id user) now in
          let expiresAt := addSevenDays now in
          exec (insertSession {| session_userId := user_id user;
                                 token := token; expiresAt := expiresAt |}) ;;;
          ret {| auth_user := omitPassword user; auth_token := token |}
      end
  end.

Definition login (now : Z) (in_email in_password : string) : M AuthResult :=
  user <- query (userByEmail in_email) ;;
  match user with
  | None => throw (TRPCError UNAUTHORIZED "Invalid credentials")
  | Some user =>
      let validPassword := bcrypt_compare in_password (password user) in
      if negb validPassword
      then throw (TRPCError UNAUTHORIZED "Invalid credentials")
      else
        exec (deleteSessionsByUser (user_id user)) ;;;
        let token := jwt_sign (user_id user) now in
        let expiresAt := addSevenDays now in
        exec (insertSession {| session_userId := user_id user;
                               token := token; expiresAt := expiresAt |}) ;;;
        ret {| auth_user := omitPassword user; auth_token := token |}
  end.

(* ------------------------------------------------------------------ *)
(** *** The account ledger (routers/account.ts)                        *)
(* ------------------------------------------------------------------ *)

Definition accountByUserAndType (uid : Z) (t : AccountType) (s : Store)
    : option Account :=
  find (fun a => Z.eqb (account_userId a) uid
                 && AccountType_eqb (accountType a) t) (accounts s).

Definition accountByNumber (n : string) (s : Store) : option Account :=
  find (fun a => String.eqb (accountNumber a) n) (accounts s).

Definition accountByIdAndUser (i uid : Z) (s : Store) : option Account :=
  find (fun a => Z.eqb (account_id a) i && Z.eqb (account_userId a) uid)
       (accounts s).

Definition accountById (i : Z) (s : Store) : option Account :=
  find (fun a => Z.eqb (account_id a) i) (accounts s).

Definition insertAccount (now uid : Z) (n : string) (t : AccountType)
    (s : Store) : Store :=
  set_accounts s
    (accounts s ++
       [{| account_id := nextId (map account_id (accounts s));
           account_userId := uid; accountNumber := n; accountType := t;
           balance := num_zero; status := "active";
           account_createdAt := now |}]).

(** The [while (!isUnique)] loop; [candidates] are the successive values
    of [generateAccountNumber()].  The loop has no bound of its own: it
    is still running when the candidates run out. *)
Fixpoint uniqueAccountNumber (candidates : list string) : M string :=
  match candidates with
  | [] => spin
  | accountNumber :: later =>
      existing <- query (accountByNumber accountNumber) ;;
      match existing with
      | None => ret accountNumber
      | Some _ => uniqueAccountNumber later
      end
  end.

Definition createAccount (now : Z) (candidates : list string)
    (ctx : Context) (in_accountType : AccountType) : M Account :=
  protectedProcedure ctx (fun user =>
    existingAccount <-
      query (accountByUserAndType (user_id user) in_accountType) ;;
    match existingAccount with
    | Some _ =>
        throw (TRPCError CONFLICT
                 ("You already have a " ++ accountTypeName in_accountType
                  ++ " account"))
    | None =>
        accountNumber <- uniqueAccountNumber candidates ;;
        exec (insertAccount now (user_id user) accountNumber in_accountType) ;;;
        account <- query (accountByNumber accountNumber) ;;
        ret (match account with
             | Some account => account
             | None =>
                 {| account_id := 0; account_userId := user_id user;
                    accountNumber := accountNumber;
                    accountType := in_accountType;
                    balance := num_zero; status := "pending";
                    account_createdAt := now |}
             end)
    end).

Definition getAccounts (ctx : Context) : M (list Account) :=
  protectedProcedure ctx (fun user =>
    query (fun s =>
      filter (fun a => Z.eqb (account_userId a) (user_id user)) (accounts s))).

Record FundingSource := {
  fs_type : FundingType; fs_accountNumber : string;
  fs_routingNumber : option string
}.

Record FundInput := {
  in_accountId : Z; in_amount : num; in_fundingSource : FundingSource
}.

(** [transactionId] is the row [{ id }] that [returning] gives back,
    identified here with its only field. *)
Record FundResult := { transactionId : Z; newBalance : num }.

(** [insert(transactions).values({...}).returning({ id })]: the store
    supplies the id and [createdAt]. *)
Definition insertTransaction (now : Z) (input : FundInput) (s : Store)
    : Z * Store :=
  let id := nextId (map transaction_id (transactions s)) in
  (id,
   set_transactions s
     (transactions s ++
        [{| transaction_id := id; accountId := in_accountId input;
            type := "deposit"; amount := in_amount input;
            description :=
              "Funding from "
              ++ fundingTypeName (fs_type (in_fundingSource input));
            transaction_status := "completed";
            createdAt := now; processedAt := now |}])).

(** The row [a] with [amount] added to its balance by the store. *)
Definition credit (amount : num) (a : Account) : Account :=
  {| account_id := account_id a; account_userId := account_userId a;
     accountNumber := accountNumber a; accountType := accountType a;
     balance := num_add (balance a) amount; status := status a;
     account_createdAt := account_createdAt a |}.

(** [update(accounts).set({ balance: balance + amount }).where(id = ..)]:
    one statement, evaluated by the store on the rows it holds when the
    statement runs. *)
Definition addToBalance (i : Z) (amount : num) (s : Store) : Store :=
  set_accounts s
    (map (fun a => if Z.eqb (account_id a) i then credit amount a else a)
         (accounts s)).

(** The procedure: the [protectedProcedure] check, the input schema
    (of which only [amount: z.number().positive()] can reject a typed
    input; the text of its error is the validator's and is not modelled),
    then the mutation. *)
Definition fundAccount (now : Z) (ctx : Context) (input : FundInput)
    : M FundResult :=
  protectedProcedure ctx (fun user =>
    if negb (num_positive (in_amount input))
    then throw (TRPCError BAD_REQUEST "Input validation failed")
    else
      (* parseFloat(input.amount.toString()) gives the number back *)
      let amount := in_amount input in
      account <-
        query (accountByIdAndUser (in_accountId input) (user_id user)) ;;
      match account with
      | None => throw (TRPCError NOT_FOUND "Account not found")
      | Some account =>
          if negb (String.eqb (status account) "active")
          then throw (TRPCError BAD_REQUEST "Account is not active")
          else if match fs_type (in_fundingSource input) with
                  | card => negb (isValidCardNumber
                                    (fs_accountNumber (in_fundingSource input)))
                  | bank => false
                  end
          then throw (TRPCError BAD_REQUEST "Invalid card number")
          else
            transactionId <- await (insertTransaction now input) ;;
            exec (addToBalance (in_accountId input) amount) ;;;
            updatedAccount <- query (accountById (in_accountId input)) ;;
            ret {| transactionId := transactionId;
                   newBalance := match updatedAccount with
                                 | Some updated => balance updated
                                 | None => balance account
                                 end |}
      end).

(** A row of the [getTransactions] result: the eight selected columns of
    the transaction and the joined [accountType]. *)
Record TransactionRow := {
  row : Transaction; row_accountType : option AccountType
}.

(** [from(transactions).leftJoin(accounts, accountId = accounts.id)]: one
    row per matching account, and one row without [accountType] when no
    account matches. *)
Definition leftJoinAccounts (s : Store) : list TransactionRow :=
  flat_map
    (fun t =>
       match filter (fun a => Z.eqb (accountId t) (account_id a)) (accounts s) with
       | [] => [{| row := t; row_accountType := None |}]
       | matches =>
           map (fun a => {| row := t; row_accountType := Some (accountType a) |})
               matches
       end)
    (transactions s).

(** [orderBy(desc(createdAt), desc(id))]: [r1] may stand before [r2]. *)
Definition newerOrEqual (r1 r2 : TransactionRow) : bool :=
  (createdAt (row r1) >? createdAt (row r2))%Z
  || ((createdAt (row r1) =? createdAt (row r2))%Z
      && (transaction_id (row r1) >=? transaction_id (row r2))%Z).

Fixpoint insertOrdered (r : TransactionRow) (sorted : list TransactionRow)
    : list TransactionRow :=
  match sorted with
  | [] => [r]
  | h :: rest =>
      if newerOrEqual r h then r :: h :: rest else h :: insertOrdered r rest
  end.

Definition orderByNewest (rows : list TransactionRow) : list TransactionRow :=
  fold_right insertOrdered [] rows.

Definition selectAccountTransactions (i : Z) (s : Store) : list TransactionRow :=
  orderByNewest
    (filter (fun r => Z.eqb (accountId (row r)) i) (leftJoinAccounts s)).

(** The [for (const transaction of accountTransactions)] loop: one more
    query per row, whose [accountType] replaces the joined one. *)
Fixpoint enrich (accountTransactions : list TransactionRow)
    : M (list TransactionRow) :=
  match accountTransactions with
  | [] => ret []
  | transaction :: later =>
      accountDetails <- query (accountById (accountId (row transaction))) ;;
      enriched <- enrich later ;;
      ret ({| row := row transaction;
              row_accountType := option_map accountType accountDetails |}
           :: enriched)
  end.

Definition getTransactions (ctx : Context) (in_accountId : Z)
    : M (list TransactionRow) :=
  protectedProcedure ctx (fun user =>
    account <- query (accountByIdAndUser in_accountId (user_id user)) ;;
    match account with
    | None => throw (TRPCError NOT_FOUND "Account not found")
    | Some _ =>
        accountTransactions <-
          query (selectAccountTransactions in_accountId) ;;
        enrich accountTransactions
    end).

(* ------------------------------------------------------------------ *)
(** *** Vocabulary of the properties                                   *)
(* ------------------------------------------------------------------ *)

(** The world of a call that starts on store [s] with a store that does
    not fail. *)
Definition healthy (s : Store) : World := {| db := s; faults := [] |}.

(** The checksum gate of [fundAccount] lets the funding source through. *)
Definition passesChecksumGate (f : FundingSource) : Prop :=
  fs_type f = bank \/ isValidCardNumber (fs_accountNumber f) = true.

(** The deposit row [fundAccount] writes. *)
Definition depositRow (now : Z) (input : FundInput) (s : Store) : Transaction :=
  {| transaction_id := nextId (map transaction_id (transactions s));
     accountId := in_accountId input; type := "deposit";
     amount := in_amount input;
     description :=
       ("Funding from "
        ++ fundingTypeName (fs_type (in_fundingSource input)))%string;
     transaction_status := "completed";
     createdAt := now; processedAt := now |}.

(** The two writes of a [fundAccount] call are in the store together or
    not at all. *)
Definition allOrNothing (now : Z) (input : FundInput) (s : Store) (w' : World)
    : Prop :=
  db w' = s
  \/ db w' = addToBalance (in_accountId input) (in_amount input)
               (snd (insertTransaction now input s)).

Definition sessionsOf (uid : Z) (s : Store) : list Session :=
  filter (fun r => Z.eqb (session_userId r) uid) (sessions s).

Definition ownsType (u : User) (t : AccountType) (a : Account) : bool :=
  Z.eqb (account_userId a) (user_id u) && AccountType_eqb (accountType a) t.

Definition conflictError (t : AccountType) : Exn :=
  TRPCError CONFLICT
    ("You already have a " ++ accountTypeName t ++ " account")%string.

(** [t1] stands before [t2] in the order (createdAt desc, id desc). *)
Definition newestFirst (t1 t2 : Transaction) : Prop :=
  (createdAt t2 < createdAt t1)%Z
  \/ (createdAt t1 = createdAt t2 /\ (transaction_id t2 < transaction_id t1)%Z).

Definition newestFirstOrTie (r1 r2 : TransactionRow) : Prop :=
  (createdAt (row r2) < createdAt (row r1))%Z
  \/ (createdAt (row r1) = createdAt (row r2)
      /\ (transaction_id (row r2) <= transaction_id (row r1))%Z).

(** What the enrichment loop makes of one row on store [s]. *)
Definition reEnrich (s : Store) (r : TransactionRow) : TransactionRow :=
  {| row := row r;
     row_accountType :=
       option_map accountType (accountById (accountId (row r)) s) |}.

End Backend.

(* ================================================================== *)
(** ** The rest of the routers                                         *)
(* ================================================================== *)

(** [parseInt(randomBytes.toString("hex"), 16)]: the bytes read as one
    number, most significant byte first. *)
Definition parseHexBytes (randomBytes : list Byte.byte) : N :=
  fold_left (fun n b => (n * 256 + Byte.to_N b)%N) randomBytes 0%N.

(** [num.toString()] on a whole number below 2^53: its decimal digits. *)
Definition numberToString (num : N) : string :=
  DecimalString.NilZero.string_of_uint (N.to_uint num).

(** [generateAccountNumber] (account.ts 11-19); [draws] are the results
    of the successive calls [crypto.randomBytes(5)].  The [while] loop
    is still running when the draws run out before ten characters are
    there. *)
Fixpoint generateAccountNumberFrom (draws : list (list Byte.byte))
    (accountNumber : string) : option string :=
  if String.length accountNumber <? 10 then
    match draws with
    | [] => None
    | randomBytes :: later =>
        let num := parseHexBytes randomBytes in
        generateAccountNumberFrom later
          (accountNumber
           ++ substring 0 (10 - String.length accountNumber)
                (numberToString num))%string
    end
  else Some accountNumber.

Definition generateAccountNumber (draws : list (list Byte.byte))
    : option string :=
  generateAccountNumberFrom draws EmptyString.

(** The request as [logout] looks at it: an API request carries the
    parsed [cookies] object (["cookies" in ctx.req]), any other request
    only its [cookie] header. *)
Inductive Request :=
| ApiRequest (cookies_session : option string)
| FetchRequest (cookieHeader : option string).

(** [c.split("=")[1]] for a [c] that contains [=]: what stands between
    the first [=] and the next one. *)
Fixpoint untilEquals (s : string) : string :=
  match s with
  | EmptyString => EmptyString
  | String ch rest =>
      if Ascii.eqb ch "=" then EmptyString else String ch (untilEquals rest)
  end.

Definition secondSegment (c : string) : option string :=
  match index 0 "=" c with
  | Some i => Some (untilEquals (substring (S i) (String.length c) c))
  | None => None
  end.

(** The token [logout] reads from the request (auth.ts 131-135): of
    several [session] cookies the first one counts. *)
Definition logoutToken (req : Request) : option string :=
  match req with
  | ApiRequest cookies_session => cookies_session
  | FetchRequest None => None
  | FetchRequest (Some cookieHeader) =>
      match find (prefix "session=") (splitCookies cookieHeader EmptyString) with
      | Some c => secondSegment c
      | None => None
      end
  end.

Definition clearedCookie : string :=
  "session=; Path=/; HttpOnly; SameSite=Strict; Max-Age=0".

(** The answer of [logout] with the [Set-Cookie] header it has set. *)
Record LogoutResult := {
  success : bool; logout_message : string; setCookie : string
}.

Definition allDigits (s : string) : bool :=
  forallb isDigit (list_ascii_of_string s).

(** The share of one digit in the total, by the parity of its position. *)
Definition luhnShare (odd : bool) (d : nat) : nat :=
  if odd then decimalDigitSum (2 * d) else d.

Definition noneOf (ch : ascii) (s : string) : Prop :=
  forall c, In c (list_ascii_of_string s) -> c <> ch.

(* ------------------------------------------------------------------ *)
(** *** The input schemas of signup and login (auth.ts 20-57, 98-100)  *)
(* ------------------------------------------------------------------ *)

Definition isUpper (c : ascii) : bool :=
  (65 <=? nat_of_ascii c) && (nat_of_ascii c <=? 90).

Definition isLower (c : ascii) : bool :=
  (97 <=? nat_of_ascii c) && (nat_of_ascii c <=? 122).

(** The twenty punctuation characters of the password schema's last
    character class, by code, in the order of the class. *)
Definition specialCodes : list nat :=
  [33; 64; 35; 36; 37; 94; 38; 42; 40; 41; 44; 46; 63; 34; 58; 123; 125;
   124; 60; 62].

Definition isSpecial (c : ascii) : bool :=
  existsb (Nat.eqb (nat_of_ascii c)) specialCodes.

Definition commonPasswords : list string :=
  ["password"; "12345678"; "qwerty"; "letmein"]%string.

Section Schema.

(** The string methods of the language the schemas call: [length] (in
    the language's own units), [toLowerCase], [toUpperCase], [trim]. *)
Variable jsLength : string -> nat.
Variable toLowerCase : string -> string.
Variable toUpperCase : string -> string.
Variable trim : string -> string.

(** The five rules of the password schema that come before the last. *)
Definition passwordWellFormed (v : string) : bool :=
  (8 <=? jsLength v)
  && existsb isUpper (list_ascii_of_string v)
  && existsb isLower (list_ascii_of_string v)
  && existsb isDigit (list_ascii_of_string v)
  && existsb isSpecial (list_ascii_of_string v).

(** The last rule: [!["password", ...].includes(v.toLowerCase())]. *)
Definition passwordNotCommon (v : string) : bool :=
  negb (existsb (String.eqb (toLowerCase v)) commonPasswords).

Definition passwordAccepted (v : string) : bool :=
  passwordWellFormed v && passwordNotCommon v.

(** What the [signup] mutation receives for an input that passes its
    schema: the email in lower case, the phone number trimmed, the
    state trimmed and in upper case, the rest as it was sent. *)
Definition signupSchemaOutput (sent : SignupInput) : SignupInput :=
  {| in_email := toLowerCase (in_email sent);
     in_password := in_password sent;
     in_ssn := in_ssn sent;
     in_profile :=
       {| firstName := firstName (in_profile sent);
          lastName := lastName (in_profile sent);
          phoneNumber := trim (phoneNumber (in_profile sent));
          dateOfBirth := dateOfBirth (in_profile sent);
          address := address (in_profile sent);
          city := city (in_profile sent);
          state := toUpperCase (trim (state (in_profile sent)));
          zipCode := zipCode (in_profile sent) |} |}.

End Schema.

Section Remaining.

Context {C : Collaborators}.

(** Whether the value the store driver resolves [db.delete(...)] to is
    truthy, given the number of rows it deleted; the driver is not part
    of the sources. *)
Variable deleteResultTruthy : nat -> bool.

Definition deleteSessionsByTokenCounting (t : string) (s : Store)
    : nat * Store :=
  (List.length (filter (fun r => String.eqb (token r) t) (sessions s)),
   deleteSessionsByToken t s).

(** [logout] (auth.ts 126-159). *)
Definition logout (ctx : Context) (req : Request) : M LogoutResult :=
  let finish :=
    ret {| success := true;
           logout_message :=
             match user ctx with
             | Some _ => "Logged out successfully"
             | None => "No active session"
             end;
           setCookie := clearedCookie |} in
  match user ctx with
  | Some _ =>
      match truthy (logoutToken req) with
      | Some token =>
          bind (await (deleteSessionsByTokenCounting token))
            (fun deleted =>
               if negb (deleteResultTruthy deleted)
               then ret {| success := false;
                           logout_message := "Session could not be deleted";
                           setCookie := clearedCookie |}
               else finish)
      | None => finish
      end
  | None => finish
  end.

(** [m], started on a store that satisfies [P], ends with an outcome
    and a store that satisfy [Q], whatever statements the store rejects
    on the way. *)
Definition triple {A} (P : Store -> Prop) (m : M A)
    (Q : Outcome A -> Store -> Prop) : Prop :=
  forall w, P (db w) -> Q (fst (m w)) (db (snd (m w))).

(** The keys of the store: ids are distinct within each table, and so
    are account numbers. *)
Definition wellKeyed (s : Store) : Prop :=
  NoDup (map user_id (users s))
  /\ NoDup (map account_id (accounts s))
  /\ NoDup (map accountNumber (accounts s))
  /\ NoDup (map transaction_id (transactions s)).

(** What a context says about the store it was made from: a user only
    when the token verifies for that user and a session row for the
    token has more than the early-expiry window left; and the only
    write ever made is the deletion of the token's session rows. *)
Definition contextJustified (now : Z) (tok : string) (s0 : Store)
    (found : option User) (s' : Store) : Prop :=
  match found with
  | Some u =>
      jwt_verify tok now = Some (user_id u)
      /\ (exists sess, sessionByToken tok s0 = Some sess
                       /\ (earlyExpiryWindow < expiresAt sess - now)%Z)
      /\ In u (users s0)
      /\ s' = s0
  | None => s' = s0 \/ s' = deleteSessionsByToken tok s0
  end.

(** The rows the handlers write. *)
Definition openedAccount (now uid : Z) (n : string) (t : AccountType)
    (s : Store) : Account :=
  {| account_id := nextId (map account_id (accounts s));
     account_userId := uid; accountNumber := n; accountType := t;
     balance := num_zero; status := "active"; account_createdAt := now |}.

Definition registeredUser (input : SignupInput) (s : Store) : User :=
  {| user_id := nextId (map user_id (users s));
     email := in_email input;
     password := bcrypt_hash (in_password input);
     ssn := bcrypt_hash (in_ssn input);
     profile := in_profile input |}.

Definition issuedSession (now uid : Z) : Session :=
  {| session_userId := uid; token := jwt_sign uid now;
     expiresAt := addSevenDays now |}.

(** Calls of [fundAccount] by one caller, one after the other, each
    with its own clock reading: the world after the last one. *)
Fixpoint fundInSequence (calls : list (Z * FundInput)) (ctx : Context)
    (w : World) : World :=
  match calls with
  | [] => w
  | (now, input) :: later =>
      fundInSequence later ctx (snd (fundAccount now ctx input w))
  end.

End Remaining.

(* ================================================================== *)
(** ** A small bank to run the handlers on                             *)
(* ================================================================== *)

Module Demo.

Local Open Scope string_scope.

(** Whole amounts, tokens that verify at any time, and a transparent
    stand-in for the password hash. *)
Definition collaborators : Collaborators :=
  {| num := Z;
     num_add := Z.add;
     num_zero := 0%Z;
     num_positive := fun a => (0 <? a)%Z;
     jwt_sign := fun uid _ =>
       if (uid =? 1)%Z then "alice.jwt" else "bob.jwt";
     jwt_verify := fun tok _ =>
       if String.eqb tok "alice.jwt" then Some 1%Z
       else if String.eqb tok "bob.jwt" then Some 2%Z
       else None;
     bcrypt_hash := fun p => ("hash:" ++ p)%string;
     bcrypt_compare := fun p h => String.eqb ("hash:" ++ p)%string h;
     addSevenDays := fun t => (t + 604800000)%Z |}.

Definition money (z : Z) : @num collaborators := z.

Definition someone : Profile :=
  {| firstName := "A"; lastName := "B"; phoneNumber := "+14155552671";
     dateOfBirth := "1990-01-01"; address := "1 Main St"; city := "Town";
     state := "CA"; zipCode := "94000" |}.

Definition alice : User :=
  {| user_id := 1; email := "alice@example.com";
     password := "hash:Secret#1"; ssn := "hash:123456789";
     profile := someone |}.

Definition bob : User :=
  {| user_id := 2; email := "bob@example.com";
     password := "hash:Secret#2"; ssn := "hash:987654321";
     profile := someone |}.

(** The clock reading of the calls below. *)
Definition now : Z := 1000000.

Definition aliceChecking : @Account collaborators :=
  {| account_id := 1; account_userId := 1; accountNumber := "1000000001";
     accountType := checking; balance := money 100; status := "active";
     account_createdAt := 10 |}.

Definition bobSavings : @Account collaborators :=
  {| account_id := 2; account_userId := 2; accountNumber := "1000000002";
     accountType := savings; balance := money 5; status := "active";
     account_createdAt := 20 |}.

Definition deposit (id account amount created : Z) : @Transaction collaborators :=
  {| transaction_id := id; accountId := account; type := "deposit";
     amount := money amount; description := "Funding from bank";
     transaction_status := "completed";
     createdAt := created; processedAt := created |}.

(** Alice's session runs out in thirty seconds; Bob has two sessions,
    one of them run out ten minutes ago. *)
Definition store : @Store collaborators :=
  {| users := [alice; bob];
     sessions :=
       [ {| session_userId := 1; token := "alice.jwt";
            expiresAt := now + 30000 |};
         {| session_userId := 2; token := "bob.jwt";
            expiresAt := now - 600000 |};
         {| session_userId := 2; token := "bob-second.jwt";
            expiresAt := now + 500000 |} ];
     accounts := [aliceChecking; bobSavings];
     transactions :=
       [ deposit 1 1 40 100; deposit 2 2 5 150; deposit 3 1 25 300;
         deposit 4 1 35 300 ] |}.

Definition asAlice : Context := {| user := Some alice |}.

Definition fundAlice (source : FundingSource) : @FundInput collaborators :=
  {| in_accountId := 1; in_amount := money 50; in_fundingSource := source |}.

Definition fundBob : @FundInput collaborators :=
  {| in_accountId := 2; in_amount := money 50;
     in_fundingSource :=
       {| fs_type := bank; fs_accountNumber := "12345678";
          fs_routingNumber := Some "021000021"%string |} |}.

Definition byBank : FundingSource :=
  {| fs_type := bank; fs_accountNumber := "12345678";
     fs_routingNumber := Some "021000021"%string |}.

Definition byCard (number : string) : FundingSource :=
  {| fs_type := card; fs_accountNumber := number; fs_routingNumber := None |}.

(** The store rejects the third statement of the call, the balance
    update of [fundAccount]. *)
Definition updateRejected : @World collaborators :=
  {| db := store; faults := [false; false; true] |}.

Definition aliceFunds : Outcome FundResult * World :=
  fundAccount now asAlice (fundAlice byBank) updateRejected.

Definition aliceValidates : Outcome Context * World :=
  createContext now "theme=dark; session=alice.jwt" {| db := store; faults := [] |}.

Definition bobValidates : Outcome Context * World :=
  createContext now "session=bob.jwt" {| db := store; faults := [] |}.

Definition bobLogsIn : Outcome AuthResult * World :=
  login now "bob@example.com" "Secret#2" {| db := store; faults := [] |}.

Definition aliceOpensSavings : Outcome Account * World :=
  createAccount now ["1000000001"; "1000000003"] asAlice savings
    {| db := store; faults := [] |}.

End Demo.

(* ================================================================== *)
(** ** More cases for the small bank                                   *)
(* ================================================================== *)

Module Cases.

Local Open Scope string_scope.

(** The small bank after Alice's checking account has been closed. *)
Definition closedStore : @Store Demo.collaborators :=
  {| users := users Demo.store;
     sessions := sessions Demo.store;
     accounts :=
       [ {| account_id := 1; account_userId := 1;
            accountNumber := "1000000001"; accountType := checking;
            balance := Demo.money 100; status := "closed";
            account_createdAt := 10 |};
         Demo.bobSavings ];
     transactions := transactions Demo.store |}.

Definition carol : SignupInput :=
  {| in_email := "carol@example.com"; in_password := "Secret#3";
     in_ssn := "111223333"; in_profile := Demo.someone |}.

Definition carolSignsUp : Outcome AuthResult * World :=
  signup Demo.now carol {| db := Demo.store; faults := [] |}.

(** Two draws of five random bytes: 42 and 2^40 - 1. *)
Definition draws : list (list Byte.byte) :=
  [ [Byte.x00; Byte.x00; Byte.x00; Byte.x00; Byte.x2a];
    [Byte.xff; Byte.xff; Byte.xff; Byte.xff; Byte.xff] ].

(** An hour before the clock reading of the other calls. *)
Definition earlier : Z := Demo.now - 3600000.

Definition aliceDeposits : list (Z * @FundInput Demo.collaborators) :=
  [ (Demo.now, Demo.fundAlice Demo.byBank);
    ((Demo.now + 1)%Z,
     {| in_accountId := 1; in_amount := Demo.money 25;
        in_fundingSource := Demo.byCard "4532015112830366" |}) ].

(** Lower case on the letters A to Z, every other character kept. *)
Fixpoint lowerAscii (s : string) : string :=
  match s with
  | EmptyString => EmptyString
  | String c rest =>
      String (if isUpper c then ascii_of_nat (nat_of_ascii c + 32) else c)
             (lowerAscii rest)
  end.

Definition dave : SignupInput :=
  {| in_email := "Dave@Example.com"; in_password := "Secret#4";
     in_ssn := "444556666"; in_profile := Demo.someone |}.

Definition daveSignsUp : Outcome AuthResult * World :=
  signup Demo.now
    (signupSchemaOutput lowerAscii (fun x => x) (fun x => x) dave)
    {| db := Demo.store; faults := [] |}.

(** A driver whose answer to a deletion is an object, hence truthy. *)
Definition objectResult (deleted : nat) : bool := true.

End Cases.

(* ================================================================== *)
(** ** Properties                                                      *)
(* ================================================================== *)

Unset Implicit Arguments.

Section Properties.

Context {C : Collaborators}.

(** *** Stepping through awaited statements *)

Lemma await_healthy A (stmt : Store -> A * Store) s :
  await stmt (healthy s) = (Returned (fst (stmt s)), healthy (snd (stmt s))).
Proof. unfold await, healthy; simpl. now destruct (stmt s). Qed.

Lemma query_healthy A (q : Store -> A) s :
  query q (healthy s) = (Returned (q s), healthy s).
Proof. unfold query. now rewrite await_healthy. Qed.

Lemma exec_healthy (u : Store -> Store) s :
  exec u (healthy s) = (Returned tt, healthy (u s)).
Proof. unfold exec. now rewrite await_healthy. Qed.

Lemma bind_healthy_query A B (q : Store -> A) (k : A -> M B) s :
  bind (query q) k (healthy s) = k (q s) (healthy s).
Proof. unfold bind. now rewrite query_healthy. Qed.

Lemma bind_healthy_exec B (u : Store -> Store) (k : unit -> M B) s :
  bind (exec u) k (healthy s) = k tt (healthy (u s)).
Proof. unfold bind. now rewrite exec_healthy. Qed.

Lemma bind_healthy_await A B (stmt : Store -> A * Store) (k : A -> M B) s :
  bind (await stmt) k (healthy s) = k (fst (stmt s)) (healthy (snd (stmt s))).
Proof. unfold bind. now rewrite await_healthy. Qed.

(** *** The checksum *)

Lemma parseDigit_le_9 c : isDigit c = true -> parseDigit c <= 9.
Proof.
  unfold isDigit, parseDigit. intros H.
  apply andb_true_iff in H as [_ H]. apply Nat.leb_le in H. lia.
Qed.

Lemma double_digit_sum d :
  d <= 9 ->
  (if 9 <? d * 2 then d * 2 - 9 else d * 2) = decimalDigitSum (2 * d).
Proof.
  intros H. unfold decimalDigitSum.
  do 10 (destruct d as [|d]; [reflexivity|]). lia.
Qed.

Lemma stripNonDigits_digits s : Forall (fun c => isDigit c = true) (stripNonDigits s).
Proof.
  induction s as [|c s IH]; simpl; [constructor|].
  destruct (isDigit c) eqn:E; auto.
Qed.

Lemma luhn_fold_total l : forall sum shouldDouble pos,
  Forall (fun c => isDigit c = true) l ->
  Nat.odd pos = shouldDouble ->
  fst (fold_left luhnStep l (sum, shouldDouble))
  = sum + luhnTotalFrom pos (map parseDigit l).
Proof.
  induction l as [|c l IH]; intros sum b pos Hd Hp;
    cbn [fold_left map luhnTotalFrom fst].
  - lia.
  - inversion Hd as [|? ? Hc Hl]; subst.
    unfold luhnStep at 2. cbv zeta.
    rewrite (IH _ _ (S pos) Hl).
    + rewrite (double_digit_sum _ (parseDigit_le_9 c Hc)).
      destruct (Nat.odd pos); lia.
    + rewrite Nat.odd_succ, <- Nat.negb_odd. reflexivity.
Qed.

Lemma isValidCardNumber_is_luhn s : isValidCardNumber s = luhn_reference s.
Proof.
  unfold isValidCardNumber, luhn_reference, luhnLoop.
  pose proof (luhn_fold_total (rev (stripNonDigits s)) 0 false 0
                (Forall_rev (stripNonDigits_digits s)) eq_refl) as H.
  destruct (fold_left luhnStep (rev (stripNonDigits s)) (0, false)) as [sum b].
  simpl in H. rewrite H, map_rev. reflexivity.
Qed.

Lemma stripNonDigits_digit_free s :
  (forall c, In c (list_ascii_of_string s) -> isDigit c = false) ->
  stripNonDigits s = [].
Proof.
  induction s as [|c s IH]; simpl; intros H; [reflexivity|].
  rewrite (H c (or_introl eq_refl)). apply IH. intros c' Hc'. apply H. now right.
Qed.

(** *** Looking rows up *)

(** With [id] a primary key, the row found by id and owner is the row
    found by id alone. *)
Lemma accountById_of_owned i uid s a :
  NoDup (map account_id (accounts s)) ->
  accountByIdAndUser i uid s = Some a ->
  accountById i s = Some a.
Proof.
  unfold accountByIdAndUser, accountById.
  induction (accounts s) as [|h l IH]; simpl; intros Hnd Hf; [discriminate|].
  inversion Hnd as [|? ? Hnotin Hnd']; subst.
  destruct (Z.eqb (account_id h) i) eqn:Ei; simpl in Hf.
  - destruct (Z.eqb (account_userId h) uid); [assumption|].
    exfalso. apply find_some in Hf as [Hin Hp].
    apply andb_true_iff in Hp as [Hp _].
    apply Z.eqb_eq in Ei, Hp. apply Hnotin.
    rewrite Ei, <- Hp. now apply in_map.
  - auto.
Qed.

Lemma accountById_addToBalance i amount s :
  accountById i (addToBalance i amount s)
  = option_map (credit amount) (accountById i s).
Proof.
  unfold accountById, addToBalance; simpl.
  induction (accounts s) as [|h l IH]; simpl; [reflexivity|].
  destruct (Z.eqb (account_id h) i) eqn:E; simpl; rewrite E; auto.
Qed.

Lemma gate_open f :
  passesChecksumGate f ->
  match fs_type f with
  | card => negb (isValidCardNumber (fs_accountNumber f))
  | bank => false
  end = false.
Proof.
  intros [H|H]; [now rewrite H|]. rewrite H. now destruct (fs_type f).
Qed.

Lemma fundAccount_healthy now u input s a :
  num_positive (in_amount input) = true ->
  accountByIdAndUser (in_accountId input) (user_id u) s = Some a ->
  status a = "active"%string ->
  passesChecksumGate (in_fundingSource input) ->
  fundAccount now {| user := Some u |} input (healthy s)
  = (let s' := addToBalance (in_accountId input) (in_amount input)
                 (snd (insertTransaction now input s)) in
     (Returned {| transactionId := fst (insertTransaction now input s);
                  newBalance := match accountById (in_accountId input) s' with
                                | Some updated => balance updated
                                | None => balance a
                                end |},
      healthy s')).
Proof.
  intros Hpos Hacc Hact Hgate.
  unfold fundAccount, protectedProcedure. cbn [user].
  rewrite Hpos. cbn [negb].
  rewrite bind_healthy_query, Hacc, Hact, String.eqb_refl. cbn [negb].
  rewrite (gate_open _ Hgate).
  rewrite bind_healthy_await, bind_healthy_exec, bind_healthy_query.
  reflexivity.
Qed.

(** C3: a successful [fundAccount] of a positive amount [A] on an active
    account the caller owns, with balance [B], leaves the store as the
    insert of one deposit row followed by the store's additive update
    leaves it: the account's balance is [B + A] (the store's addition),
    the transactions are the old ones and one new row of type deposit,
    status completed and amount [A], and the call returns that row's id
    with the balance after the update. *)
Theorem fundAccount_credits_exactly now u input s a :
  num_positive (in_amount input) = true ->
  NoDup (map account_id (accounts s)) ->
  accountByIdAndUser (in_accountId input) (user_id u) s = Some a ->
  status a = "active"%string ->
  passesChecksumGate (in_fundingSource input) ->
  exists w',
    fundAccount now {| user := Some u |} input (healthy s)
    = (Returned {| transactionId := transaction_id (depositRow now input s);
                   newBalance := num_add (balance a) (in_amount input) |}, w')
    /\ db w' = addToBalance (in_accountId input) (in_amount input)
                 (snd (insertTransaction now input s))
    /\ transactions (db w') = transactions s ++ [depositRow now input s]
    /\ type (depositRow now input s) = "deposit"%string
    /\ transaction_status (depositRow now input s) = "completed"%string
    /\ amount (depositRow now input s) = in_amount input
    /\ accountId (depositRow now input s) = account_id a
    /\ accountById (in_accountId input) (db w')
       = Some (credit (in_amount input) a)
    /\ balance (credit (in_amount input) a)
       = num_add (balance a) (in_amount input)
    /\ users (db w') = users s /\ sessions (db w') = sessions s.
Proof.
  intros Hpos Hkey Hacc Hact Hgate.
  pose proof (accountById_of_owned _ _ _ _ Hkey Hacc) as Hid.
  assert (Hupd : accountById (in_accountId input)
                   (addToBalance (in_accountId input) (in_amount input)
                      (snd (insertTransaction now input s)))
                 = Some (credit (in_amount input) a)).
  { rewrite accountById_addToBalance.
    change (accountById (in_accountId input) (snd (insertTransaction now input s)))
      with (accountById (in_accountId input) s).
    now rewrite Hid. }
  eexists. split.
  - rewrite (fundAccount_healthy now u input s a Hpos Hacc Hact Hgate).
    cbv zeta. rewrite Hupd. reflexivity.
  - cbn [db healthy]. repeat split; try reflexivity; try assumption.
    apply find_some in Hacc as [_ Hp].
    apply andb_true_iff in Hp as [Hp _]. apply Z.eqb_eq in Hp.
    now rewrite Hp.
Qed.

Lemma accountByIdAndUser_absent i uid s :
  (forall a, In a (accounts s) -> account_id a = i -> account_userId a <> uid) ->
  accountByIdAndUser i uid s = None.
Proof.
  intros H. unfold accountByIdAndUser.
  destruct (find _ (accounts s)) as [a|] eqn:E; [|reflexivity].
  apply find_some in E as [Hin Hp].
  apply andb_true_iff in Hp as [H1 H2]. apply Z.eqb_eq in H1, H2.
  now destruct (H a Hin H1).
Qed.

(** C5: when the account id names no account, or an account of another
    user, [fundAccount] and [getTransactions] both throw NOT_FOUND, and
    whatever the store does during the call (fail or not), the outcome is
    never FORBIDDEN and the store is left as it was. *)
Theorem foreign_account_is_not_found now u input s :
  num_positive (in_amount input) = true ->
  (forall a, In a (accounts s) -> account_id a = in_accountId input ->
             account_userId a <> user_id u) ->
  fundAccount now {| user := Some u |} input (healthy s)
  = (Thrown (TRPCError NOT_FOUND "Account not found"), healthy s)
  /\ getTransactions {| user := Some u |} (in_accountId input) (healthy s)
     = (Thrown (TRPCError NOT_FOUND "Account not found"), healthy s)
  /\ forall fs,
       let w := {| db := s; faults := fs |} in
       db (snd (fundAccount now {| user := Some u |} input w)) = s
       /\ db (snd (getTransactions {| user := Some u |} (in_accountId input) w)) = s
       /\ (forall msg,
             fst (fundAccount now {| user := Some u |} input w)
             <> Thrown (TRPCError FORBIDDEN msg))
       /\ (forall msg,
             fst (getTransactions {| user := Some u |} (in_accountId input) w)
             <> Thrown (TRPCError FORBIDDEN msg)).
Proof.
  intros Hpos Hforeign.
  pose proof (accountByIdAndUser_absent _ _ _ Hforeign) as Hnone.
  unfold fundAccount, getTransactions, protectedProcedure. cbn [user].
  rewrite Hpos. cbn [negb].
  rewrite !bind_healthy_query, Hnone.
  repeat split; try reflexivity;
    destruct fs as [|[|] fs];
    unfold bind, query, await; cbn [faults db fst snd];
    rewrite ?Hnone; cbn [fst snd db]; try reflexivity; try discriminate.
Qed.

(** C8: the checksum of [fundAccount] is the Luhn checksum; 4532015112830366
    passes and 4532015112830367 fails; on an active account of the caller
    a card whose number fails the checksum is refused with BAD_REQUEST
    and nothing is written, and a bank source is let through whatever
    its number. *)
Theorem card_checksum_is_luhn :
  isValidCardNumber "4532015112830366" = true
  /\ isValidCardNumber "4532015112830367" = false
  /\ (forall n, isValidCardNumber n = luhn_reference n)
  /\ (forall now u input s a,
        num_positive (in_amount input) = true ->
        accountByIdAndUser (in_accountId input) (user_id u) s = Some a ->
        status a = "active"%string ->
        (fs_type (in_fundingSource input) = card ->
         isValidCardNumber (fs_accountNumber (in_fundingSource input)) = false ->
         fundAccount now {| user := Some u |} input (healthy s)
         = (Thrown (TRPCError BAD_REQUEST "Invalid card number"), healthy s))
        /\ (fs_type (in_fundingSource input) = bank ->
            exists r w',
              fundAccount now {| user := Some u |} input (healthy s)
              = (Returned r, w'))).
Proof.
  split; [reflexivity|]. split; [reflexivity|].
  split; [exact isValidCardNumber_is_luhn|].
  intros now u input s a Hpos Hacc Hact. split.
  - intros Hcard Hbad.
    unfold fundAccount, protectedProcedure. cbn [user].
    rewrite Hpos. cbn [negb].
    rewrite bind_healthy_query, Hacc, Hact, String.eqb_refl. cbn [negb].
    now rewrite Hcard, Hbad.
  - intros Hbank.
    assert (Hgate : passesChecksumGate (in_fundingSource input)) by now left.
    rewrite (fundAccount_healthy now u input s a Hpos Hacc Hact Hgate).
    eauto.
Qed.

(** C10: a card number without any decimal digit passes
    [isValidCardNumber], so [fundAccount] with such a card on an active
    account of the caller is not stopped by the checksum and returns. *)
Theorem digit_free_card_passes n :
  (forall c, In c (list_ascii_of_string n) -> isDigit c = false) ->
  isValidCardNumber n = true
  /\ forall now u input s a,
       num_positive (in_amount input) = true ->
       accountByIdAndUser (in_accountId input) (user_id u) s = Some a ->
       status a = "active"%string ->
       fs_type (in_fundingSource input) = card ->
       fs_accountNumber (in_fundingSource input) = n ->
       exists r w',
         fundAccount now {| user := Some u |} input (healthy s)
         = (Returned r, w')
         /\ transactions (db w') = transactions s ++ [depositRow now input s].
Proof.
  intros Hfree.
  assert (Hvalid : isValidCardNumber n = true).
  { unfold isValidCardNumber. now rewrite (stripNonDigits_digit_free _ Hfree). }
  split; [assumption|].
  intros now u input s a Hpos Hacc Hact Hcard Hn.
  assert (Hgate : passesChecksumGate (in_fundingSource input))
    by (right; now rewrite Hn).
  rewrite (fundAccount_healthy now u input s a Hpos Hacc Hact Hgate).
  eexists _, _. split; reflexivity.
Qed.

(** C1, as the code has it: the insert of the deposit row and the
    additive update are the second and third store statements of the
    call, each durable on its own.  If the lookup or the insert fails
    nothing is written; if neither the insert nor the update fails both
    effects are in the store (also when the later re-read fails); if the
    update fails after the insert, the deposit row stays and no balance
    has changed. *)
Theorem fundAccount_effects_by_failure_point now u input s a fs :
  num_positive (in_amount input) = true ->
  accountByIdAndUser (in_accountId input) (user_id u) s = Some a ->
  status a = "active"%string ->
  passesChecksumGate (in_fundingSource input) ->
  let run := fundAccount now {| user := Some u |} input
               {| db := s; faults := fs |} in
  let inserted := snd (insertTransaction now input s) in
  match fs with
  | true :: _ | false :: true :: _ =>
      fst run = Thrown StoreFailure /\ db (snd run) = s
  | false :: false :: true :: _ =>
      fst run = Thrown StoreFailure
      /\ db (snd run) = inserted
      /\ transactions (db (snd run)) = transactions s ++ [depositRow now input s]
      /\ accounts (db (snd run)) = accounts s
  | _ =>
      db (snd run)
      = addToBalance (in_accountId input) (in_amount input) inserted
  end.
Proof.
  intros Hpos Hacc Hact Hgate.
  pose proof (gate_open _ Hgate) as Hopen.
  unfold fundAccount, protectedProcedure. cbn [user].
  rewrite Hpos. cbn [negb].
  destruct fs as [|[|] [|[|] [|[|] fs]]];
    unfold bind, query, exec, await; cbn [faults db fst snd];
    rewrite ?Hacc, ?Hact, ?String.eqb_refl; cbn [negb];
    rewrite ?Hopen; cbn [faults db fst snd];
    repeat split; try reflexivity;
    destruct fs as [|[|] fs]; reflexivity.
Qed.

(** *** Session validation *)

Lemma truthy_nonempty tok : tok <> EmptyString -> truthy (Some tok) = Some tok.
Proof. destruct tok; [congruence|reflexivity]. Qed.

Lemma sessionByToken_deleted tok s :
  sessionByToken tok (deleteSessionsByToken tok s) = None.
Proof.
  unfold sessionByToken, deleteSessionsByToken; simpl.
  induction (sessions s) as [|r l IH]; simpl; [reflexivity|].
  destruct (String.eqb (token r) tok) eqn:E; simpl; [assumption|].
  now rewrite E.
Qed.

(** The early-expiry branch: the row is deleted, the error thrown next
    is caught by the enclosing [catch], and the context is returned
    without a user. *)
Lemma createContext_early_expiry now cookies tok s sess uid :
  cookieSession cookies = Some tok ->
  tok <> EmptyString ->
  jwt_verify tok now = Some uid ->
  sessionByToken tok s = Some sess ->
  (expiresAt sess - now <= earlyExpiryWindow)%Z ->
  createContext now cookies (healthy s)
  = (Returned {| user := None |}, healthy (deleteSessionsByToken tok s)).
Proof.
  intros Hcookie Htok Hjwt Hsess Hwin.
  unfold createContext, validateSession.
  rewrite Hcookie, (truthy_nonempty _ Htok), Hjwt. cbv zeta.
  unfold bind at 1. unfold tryCatch.
  rewrite bind_healthy_query, Hsess.
  apply Z.leb_le in Hwin. rewrite Hwin.
  rewrite bind_healthy_exec. reflexivity.
Qed.

(** Without a row for the token the caller is anonymous and nothing is
    written, whether or not the token verifies. *)
Lemma createContext_no_session now cookies tok s :
  cookieSession cookies = Some tok ->
  sessionByToken tok s = None ->
  createContext now cookies (healthy s)
  = (Returned {| user := None |}, healthy s).
Proof.
  intros Hcookie Hnone. unfold createContext, validateSession.
  rewrite Hcookie. cbv zeta.
  destruct tok as [|c tok]; [reflexivity|]. cbn [truthy].
  unfold bind at 1. unfold tryCatch.
  destruct (jwt_verify (String c tok) now); [|reflexivity].
  now rewrite bind_healthy_query, Hnone.
Qed.

(** C2, as the code behaves: for a token that verifies and whose session
    has [expiresAt - now <= 60000], [createContext] deletes the session
    row and then returns a context without a user, the UNAUTHORIZED
    error "Session expired" being caught inside [createContext] itself;
    validating the same token again returns a context without a user
    and writes nothing. *)
Theorem early_expiry_error_is_swallowed now cookies tok s sess uid :
  cookieSession cookies = Some tok ->
  tok <> EmptyString ->
  jwt_verify tok now = Some uid ->
  sessionByToken tok s = Some sess ->
  (expiresAt sess - now <= earlyExpiryWindow)%Z ->
  let first := createContext now cookies (healthy s) in
  fst first = Returned {| user := None |}
  /\ fst first <> Thrown (TRPCError UNAUTHORIZED "Session expired")
  /\ sessionByToken tok (db (snd first)) = None
  /\ forall later,
       createContext later cookies (snd first)
       = (Returned {| user := None |}, snd first).
Proof.
  intros Hcookie Htok Hjwt Hsess Hwin. cbv zeta.
  rewrite (createContext_early_expiry _ _ _ _ _ _ Hcookie Htok Hjwt Hsess Hwin).
  cbn [fst snd db healthy].
  repeat split; try discriminate.
  - apply sessionByToken_deleted.
  - intros later.
    apply (createContext_no_session _ _ _ _ Hcookie), sessionByToken_deleted.
Qed.

(** C6, as the code has it: a session that is already expired always
    satisfies the early-expiry test, so no session is expired and
    outside the window.  For such a session the caller is anonymous, and
    the row is deleted when the token verifies; it stays only when
    verification of the token itself fails. *)
Theorem expired_session_is_reaped now cookies tok s sess :
  cookieSession cookies = Some tok ->
  tok <> EmptyString ->
  sessionByToken tok s = Some sess ->
  (expiresAt sess < now)%Z ->
  (expiresAt sess - now <=? earlyExpiryWindow)%Z = true
  /\ createContext now cookies (healthy s)
     = (Returned {| user := None |},
        healthy (match jwt_verify tok now with
                 | Some _ => deleteSessionsByToken tok s
                 | None => s
                 end))
  /\ (jwt_verify tok now <> None ->
      sessionByToken tok
        (db (snd (createContext now cookies (healthy s)))) = None).
Proof.
  intros Hcookie Htok Hsess Hexp.
  assert (Hwin : (expiresAt sess - now <= earlyExpiryWindow)%Z)
    by (unfold earlyExpiryWindow; lia).
  split; [now apply Z.leb_le|].
  destruct (jwt_verify tok now) as [uid|] eqn:Hjwt.
  - rewrite (createContext_early_expiry _ _ _ _ _ _ Hcookie Htok Hjwt Hsess Hwin).
    split; [reflexivity|]. intros _. apply sessionByToken_deleted.
  - split; [|congruence].
    unfold createContext, validateSession.
    now rewrite Hcookie, (truthy_nonempty _ Htok), Hjwt.
Qed.

(** *** Login *)

Lemma filter_after_delete uid l r :
  session_userId r = uid ->
  filter (fun x => Z.eqb (session_userId x) uid)
    (filter (fun x => negb (Z.eqb (session_userId x) uid)) l ++ [r])
  = [r].
Proof.
  intros Hr. rewrite filter_app. simpl. rewrite Hr, Z.eqb_refl.
  induction l as [|x l IH]; simpl; [reflexivity|].
  destruct (Z.eqb (session_userId x) uid) eqn:E; simpl; [assumption|].
  now rewrite E.
Qed.

(** Reading a returning run backwards, statement by statement. *)
Lemma bind_returned A B (m : M A) (k : A -> M B) w b w' :
  bind m k w = (Returned b, w') ->
  exists a w1, m w = (Returned a, w1) /\ k a w1 = (Returned b, w').
Proof.
  unfold bind. destruct (m w) as [[a| |] w1]; try discriminate. eauto.
Qed.

Lemma await_returned A (stmt : Store -> A * Store) w a w' :
  await stmt w = (Returned a, w') ->
  a = fst (stmt (db w)) /\ db w' = snd (stmt (db w)).
Proof.
  unfold await. destruct (faults w) as [|[|] fs]; try discriminate;
    destruct (stmt (db w)); intros H; injection H as <- <-; auto.
Qed.

(** A statement either takes effect or is rejected and changes nothing. *)
Lemma await_outcome A (stmt : Store -> A * Store) w o w' :
  await stmt w = (o, w') ->
  (o = Returned (fst (stmt (db w))) /\ db w' = snd (stmt (db w)))
  \/ (o = Thrown StoreFailure /\ db w' = db w).
Proof.
  unfold await. destruct (faults w) as [|[|] fs];
    destruct (stmt (db w)); intros H; injection H as <- <-; auto.
Qed.

Lemma query_returned A (q : Store -> A) w a w' :
  query q w = (Returned a, w') -> a = q (db w) /\ db w' = db w.
Proof. intros H. now apply await_returned in H. Qed.

Lemma exec_returned (u : Store -> Store) w a w' :
  exec u w = (Returned a, w') -> db w' = u (db w).
Proof. intros H. now apply await_returned in H. Qed.

Lemma ret_returned A (a b : A) w w' :
  ret a w = (Returned b, w') -> a = b /\ w = w'.
Proof. unfold ret. intros H. now injection H. Qed.

(** What a returning [login] has done to the store. *)
Lemma login_returned now e pw w r w' :
  login now e pw w = (Returned r, w') ->
  exists u,
    userByEmail e (db w) = Some u
    /\ bcrypt_compare pw (password u) = true
    /\ r = {| auth_user := omitPassword u;
              auth_token := jwt_sign (user_id u) now |}
    /\ db w' = insertSession
                 {| session_userId := user_id u;
                    token := jwt_sign (user_id u) now;
                    expiresAt := addSevenDays now |}
                 (deleteSessionsByUser (user_id u) (db w)).
Proof.
  unfold login. intros H.
  apply bind_returned in H as (found & w1 & Hq & H).
  apply query_returned in Hq as [-> Hw1].
  destruct (userByEmail e (db w)) as [u|]; [|discriminate].
  destruct (bcrypt_compare pw (password u)) eqn:Hpw; [|discriminate].
  cbn [negb] in H.
  apply bind_returned in H as (? & w2 & Hdel & H).
  apply exec_returned in Hdel.
  apply bind_returned in H as (? & w3 & Hins & H).
  apply exec_returned in Hins.
  apply ret_returned in H as [<- <-].
  exists u. repeat split; try assumption.
  now rewrite Hins, Hdel, Hw1.
Qed.

(** What a returning [signup] has done to the sessions. *)
Lemma signup_returned now input w r w' :
  signup now input w = (Returned r, w') ->
  sessions (db w')
  = sessions (db w)
    ++ [{| session_userId := pub_id (auth_user r);
           token := auth_token r; expiresAt := addSevenDays now |}].
Proof.
  unfold signup. intros H.
  apply bind_returned in H as (existing & w1 & Hq & H).
  apply query_returned in Hq as [-> Hw1].
  destruct (userByEmail (in_email input) (db w)); [discriminate|].
  apply bind_returned in H as (? & w2 & Hins & H).
  apply exec_returned in Hins.
  apply bind_returned in H as (created & w3 & Hq & H).
  apply query_returned in Hq as [-> Hw3].
  destruct (userByEmail (in_email input) (db w2)) as [u|]; [|discriminate].
  apply bind_returned in H as (? & w4 & Hses & H).
  apply exec_returned in Hses.
  apply ret_returned in H as [<- <-].
  rewrite Hses, Hw3, Hins, Hw1. reflexivity.
Qed.

(** The store after any run of [login]: untouched, or with the user's
    sessions deleted, or with the new session added after that. *)
Lemma login_db now e pw w :
  db (snd (login now e pw w)) = db w
  \/ exists u,
       db (snd (login now e pw w)) = deleteSessionsByUser (user_id u) (db w)
       \/ db (snd (login now e pw w))
          = insertSession
              {| session_userId := user_id u;
                 token := jwt_sign (user_id u) now;
                 expiresAt := addSevenDays now |}
              (deleteSessionsByUser (user_id u) (db w)).
Proof.
  unfold login, bind, query, exec.
  destruct (await (fun s => (userByEmail e s, s)) w) as [o1 w1] eqn:H1.
  apply await_outcome in H1 as [[-> Hw1]|[-> Hw1]]; cbn [fst snd] in *;
    [|left; exact Hw1].
  destruct (userByEmail e (db w)) as [u|]; [|left; exact Hw1].
  destruct (bcrypt_compare pw (password u)); cbn [negb]; [|left; exact Hw1].
  destruct (await (fun s => (tt, deleteSessionsByUser (user_id u) s)) w1)
    as [o2 w2] eqn:H2.
  apply await_outcome in H2 as [[-> Hw2]|[-> Hw2]]; cbn [fst snd] in *;
    [|left; congruence].
  destruct (await (fun s => (tt, insertSession
                                   {| session_userId := user_id u;
                                      token := jwt_sign (user_id u) now;
                                      expiresAt := addSevenDays now |} s)) w2)
    as [o3 w3] eqn:H3.
  apply await_outcome in H3 as [[-> Hw3]|[-> Hw3]]; cbn [fst snd] in *;
    right; exists u; [right|left]; cbn [ret snd]; congruence.
Qed.

Lemma sessions_after_delete uid deleted l :
  (uid = deleted ->
   filter (fun x => Z.eqb (session_userId x) uid)
     (filter (fun x => negb (Z.eqb (session_userId x) deleted)) l) = [])
  /\ (uid <> deleted ->
      filter (fun x => Z.eqb (session_userId x) uid)
        (filter (fun x => negb (Z.eqb (session_userId x) deleted)) l)
      = filter (fun x => Z.eqb (session_userId x) uid) l).
Proof.
  split; intros H; induction l as [|x l IH]; simpl; try reflexivity.
  - subst. destruct (Z.eqb (session_userId x) deleted) eqn:E; simpl;
      [assumption|now rewrite E].
  - destruct (Z.eqb (session_userId x) deleted) eqn:E; simpl.
    + apply Z.eqb_eq in E.
      rewrite (proj2 (Z.eqb_neq (session_userId x) uid)) by congruence.
      assumption.
    + now rewrite IH.
Qed.

(** C4: after a [login] that returns, the store holds exactly one
    session of that user, the one just issued: every earlier session of
    the user was deleted first, and the sessions of other users are
    untouched.  [signup], the other place that issues a session, deletes
    none: it only appends.  A [login] with the right password on a
    store that does not fail does return, and no [login], whether it
    returns or throws and whatever the store rejects, takes a user from
    at most one session to more than one. *)
Theorem login_leaves_one_session :
  (forall now e pw w r w',
     login now e pw w = (Returned r, w') ->
     let uid := pub_id (auth_user r) in
     let issued := {| session_userId := uid; token := auth_token r;
                      expiresAt := addSevenDays now |} in
     sessionsOf uid (db w') = [issued]
     /\ (List.length (sessionsOf uid (db w')) <= 1)%nat
     /\ sessions (db w')
        = filter (fun x => negb (Z.eqb (session_userId x) uid))
            (sessions (db w)) ++ [issued])
  /\ (forall now input w r w',
        signup now input w = (Returned r, w') ->
        sessions (db w')
        = sessions (db w)
          ++ [{| session_userId := pub_id (auth_user r);
                 token := auth_token r; expiresAt := addSevenDays now |}])
  /\ (forall now e pw s u,
        userByEmail e s = Some u ->
        bcrypt_compare pw (password u) = true ->
        exists r w', login now e pw (healthy s) = (Returned r, w'))
  /\ (forall now e pw w uid,
        (List.length (sessionsOf uid (db w)) <= 1)%nat ->
        (List.length (sessionsOf uid (db (snd (login now e pw w)))) <= 1)%nat).
Proof.
  split; [|split; [exact signup_returned|split]].
  3:{ intros now e pw w uid Hbefore.
      destruct (login_db now e pw w) as [->|(u & [->| ->])];
        [assumption|..]; unfold sessionsOf in *;
        cbn [insertSession deleteSessionsByUser set_sessions sessions];
        rewrite ?filter_app, ?length_app;
        pose proof (sessions_after_delete uid (user_id u) (sessions (db w)))
          as [Hzero Hsame];
        destruct (Z.eq_dec uid (user_id u)) as [->|Hne].
      - rewrite Hzero by reflexivity. simpl. lia.
      - rewrite Hsame by assumption. assumption.
      - rewrite Hzero by reflexivity. cbn [filter session_userId].
        rewrite Z.eqb_refl. simpl. lia.
      - rewrite Hsame by assumption. cbn [filter session_userId].
        rewrite (proj2 (Z.eqb_neq (user_id u) uid)) by congruence.
        simpl. lia. }
  2:{ intros now e pw s u Hu Hpw. unfold login.
      rewrite bind_healthy_query, Hu, Hpw. cbn [negb].
      rewrite !bind_healthy_exec. unfold ret. eauto. }
  intros now e pw w r w' H.
  destruct (login_returned _ _ _ _ _ _ H) as (u & _ & _ & -> & Hdb).
  cbn [auth_user auth_token omitPassword pub_id].
  unfold sessionsOf. rewrite Hdb.
  cbn [insertSession deleteSessionsByUser set_sessions sessions].
  rewrite filter_after_delete by reflexivity.
  repeat split. simpl. lia.
Qed.

(** *** Account creation *)

Lemma find_none_filter A (p : A -> bool) l : find p l = None -> filter p l = [].
Proof.
  induction l as [|x l IH]; simpl; [reflexivity|].
  destruct (p x); [discriminate|assumption].
Qed.

Lemma find_app_last A (p : A -> bool) l x :
  find p l = None -> p x = true -> find p (l ++ [x]) = Some x.
Proof.
  intros Hl Hx. induction l as [|y l IH]; simpl in *; [now rewrite Hx|].
  destruct (p y); [discriminate|auto].
Qed.

Lemma createAccount_conflict now candidates u t s a :
  accountByUserAndType (user_id u) t s = Some a ->
  createAccount now candidates {| user := Some u |} t (healthy s)
  = (Thrown (conflictError t), healthy s).
Proof.
  intros H. unfold createAccount, protectedProcedure. cbn [user].
  now rewrite bind_healthy_query, H.
Qed.

(** On a store that does not fail the retry loop writes nothing; it
    returns the first candidate no account carries. *)
Lemma uniqueAccountNumber_healthy candidates s :
  (exists n, uniqueAccountNumber candidates (healthy s) = (Returned n, healthy s)
             /\ In n candidates /\ accountByNumber n s = None)
  \/ (uniqueAccountNumber candidates (healthy s) = (Spinning, healthy s)
      /\ forall n, In n candidates -> accountByNumber n s <> None).
Proof.
  induction candidates as [|c l IH]; cbn [uniqueAccountNumber].
  - right. split; [reflexivity|]. intros n [].
  - rewrite bind_healthy_query.
    destruct (accountByNumber c s) as [a|] eqn:E.
    + destruct IH as [(n & Hr & Hin & Hn)|[Hs Hall]].
      * left. exists n. repeat split; [assumption|now right|assumption].
      * right. split; [assumption|].
        intros n [<-|Hin]; [congruence|auto].
    + left. exists c. repeat split; [now left|assumption].
Qed.

Lemma createAccount_returned_healthy now candidates u t s a w' :
  createAccount now candidates {| user := Some u |} t (healthy s)
  = (Returned a, w') ->
  accountByUserAndType (user_id u) t s = None
  /\ exists n, w' = healthy (insertAccount now (user_id u) n t s).
Proof.
  unfold createAccount, protectedProcedure. cbn [user].
  rewrite bind_healthy_query.
  destruct (accountByUserAndType (user_id u) t s); [discriminate|].
  intros H. split; [reflexivity|].
  apply bind_returned in H as (n & w1 & Hn & H).
  destruct (uniqueAccountNumber_healthy candidates s)
    as [(n' & Hr & _)|[Hs _]]; rewrite Hn in *; [|discriminate].
  injection Hr as -> ->.
  rewrite bind_healthy_exec, bind_healthy_query in H.
  apply ret_returned in H as [_ <-]. eauto.
Qed.

(** C7: for a user who owns an account of type [t], [createAccount] of
    type [t] throws CONFLICT and writes nothing.  In particular, when a
    first [createAccount] has returned, a second one of the same type
    throws CONFLICT, and the store holds the accounts it held before the
    first call and one more, exactly one of them of that type for the
    user.  A first call does return when the user has no account of the
    type and some candidate number is free. *)
Theorem second_createAccount_conflicts u t :
  (forall now candidates s a,
     In a (accounts s) -> ownsType u t a = true ->
     createAccount now candidates {| user := Some u |} t (healthy s)
     = (Thrown (conflictError t), healthy s))
  /\ (forall now1 candidates1 s a w1 now2 candidates2,
        createAccount now1 candidates1 {| user := Some u |} t (healthy s)
        = (Returned a, w1) ->
        createAccount now2 candidates2 {| user := Some u |} t w1
        = (Thrown (conflictError t), w1)
        /\ List.length (filter (ownsType u t) (accounts (db w1))) = 1%nat
        /\ List.length (accounts (db w1)) = S (List.length (accounts s)))
  /\ (forall now candidates s n,
        accountByUserAndType (user_id u) t s = None ->
        In n candidates -> accountByNumber n s = None ->
        exists a w1,
          createAccount now candidates {| user := Some u |} t (healthy s)
          = (Returned a, w1)).
Proof.
  repeat split.
  - intros now candidates s a Hin Hown.
    destruct (accountByUserAndType (user_id u) t s) as [b|] eqn:E.
    + now apply createAccount_conflict with b.
    + exfalso. unfold accountByUserAndType in E.
      pose proof (find_none _ _ E a Hin) as Hno.
      unfold ownsType in Hown. congruence.
  - destruct (createAccount_returned_healthy _ _ _ _ _ _ _ H) as (Hnone & n & ->).
    eapply createAccount_conflict.
    unfold accountByUserAndType, insertAccount. cbn [accounts set_accounts].
    apply find_app_last; [exact Hnone|].
    cbn. now rewrite Z.eqb_refl; destruct t.
  - destruct (createAccount_returned_healthy _ _ _ _ _ _ _ H) as (Hnone & n & ->).
    cbn [db healthy insertAccount accounts set_accounts].
    unfold ownsType. rewrite filter_app, (find_none_filter _ _ _ Hnone).
    cbn. rewrite Z.eqb_refl. now destruct t.
  - destruct (createAccount_returned_healthy _ _ _ _ _ _ _ H) as (_ & n & ->).
    cbn [db healthy insertAccount accounts set_accounts].
    rewrite length_app. simpl. lia.
  - intros now candidates s n Hnone Hin Hfree.
    unfold createAccount, protectedProcedure. cbn [user].
    rewrite bind_healthy_query, Hnone.
    destruct (uniqueAccountNumber_healthy candidates s)
      as [(n' & Hr & _)|[_ Hall]]; [|now destruct (Hall n Hin)].
    unfold bind at 1. rewrite Hr.
    rewrite bind_healthy_exec, bind_healthy_query. unfold ret. eauto.
Qed.

(** *** Transaction history *)

Lemma newerOrEqual_true r1 r2 :
  newerOrEqual r1 r2 = true -> newestFirstOrTie r1 r2.
Proof.
  unfold newerOrEqual, newestFirstOrTie. intros H.
  apply orb_true_iff in H as [H|H].
  - left. apply Z.gtb_lt in H. lia.
  - right. apply andb_true_iff in H as [H1 H2].
    apply Z.eqb_eq in H1. apply Z.geb_le in H2. lia.
Qed.

Lemma newerOrEqual_false r1 r2 :
  newerOrEqual r1 r2 = false -> newestFirstOrTie r2 r1.
Proof.
  unfold newerOrEqual, newestFirstOrTie. intros H.
  apply orb_false_iff in H as [H1 H2].
  rewrite Z.gtb_ltb in H1. apply Z.ltb_ge in H1.
  apply andb_false_iff in H2 as [H2|H2].
  - apply Z.eqb_neq in H2. lia.
  - rewrite Z.geb_leb in H2. apply Z.leb_gt in H2. lia.
Qed.

Lemma newestFirstOrTie_trans r1 r2 r3 :
  newestFirstOrTie r1 r2 -> newestFirstOrTie r2 r3 -> newestFirstOrTie r1 r3.
Proof. unfold newestFirstOrTie. lia. Qed.

Lemma insertOrdered_perm r l : Permutation (insertOrdered r l) (r :: l).
Proof.
  induction l as [|h l IH]; simpl; [reflexivity|].
  destruct (newerOrEqual r h); [reflexivity|].
  rewrite IH. apply perm_swap.
Qed.

Lemma insertOrdered_sorted r l :
  StronglySorted newestFirstOrTie l ->
  StronglySorted newestFirstOrTie (insertOrdered r l).
Proof.
  induction 1 as [|h l Hs IH Hall]; simpl.
  - repeat constructor.
  - destruct (newerOrEqual r h) eqn:E.
    + apply newerOrEqual_true in E.
      constructor; [now constructor|].
      constructor; [assumption|].
      eapply Forall_impl; [|exact Hall].
      intros x Hx. now apply newestFirstOrTie_trans with h.
    + apply newerOrEqual_false in E.
      constructor; [assumption|].
      apply (Permutation_Forall (Permutation_sym (insertOrdered_perm r l))).
      now constructor.
Qed.

Lemma orderByNewest_perm l : Permutation (orderByNewest l) l.
Proof.
  induction l as [|r l IH]; simpl; [reflexivity|].
  rewrite insertOrdered_perm. now constructor.
Qed.

Lemma orderByNewest_sorted l : StronglySorted newestFirstOrTie (orderByNewest l).
Proof.
  induction l as [|r l IH]; simpl; [constructor|].
  now apply insertOrdered_sorted.
Qed.

(** With distinct ids a tie is impossible. *)
Lemma sorted_strict l :
  NoDup (map (fun r => transaction_id (row r)) l) ->
  StronglySorted newestFirstOrTie l ->
  StronglySorted (fun r1 r2 => newestFirst (row r1) (row r2)) l.
Proof.
  induction l as [|h l IH]; intros Hnd Hs; [constructor|].
  inversion Hs as [|? ? Hs' Hall]; subst.
  inversion Hnd as [|? ? Hnotin Hnd']; subst.
  constructor; [auto|].
  rewrite Forall_forall in *. intros x Hx.
  destruct (Hall x Hx) as [Hlt|[Heq Hle]]; [now left|].
  right. split; [assumption|].
  assert (transaction_id (row x) <> transaction_id (row h)).
  { intros E. apply Hnotin. rewrite <- E.
    now apply (in_map (fun r => transaction_id (row r))). }
  lia.
Qed.

Lemma StronglySorted_map_row (f : TransactionRow -> TransactionRow) l :
  (forall r, row (f r) = row r) ->
  StronglySorted (fun r1 r2 => newestFirst (row r1) (row r2)) l ->
  StronglySorted (fun r1 r2 => newestFirst (row r1) (row r2)) (map f l).
Proof.
  intros Hf. induction 1 as [|h l Hs IH Hall]; simpl; constructor; auto.
  rewrite Forall_forall in *. intros x Hx.
  apply in_map_iff in Hx as (y & <- & Hy). rewrite !Hf. auto.
Qed.

(** With [id] a primary key of the accounts, the join matches each
    transaction of account [i] with exactly one account. *)
Lemma no_match i l :
  ~ In i (map account_id l) ->
  filter (fun b => Z.eqb i (account_id b)) l = [].
Proof.
  induction l as [|x l IH]; simpl; intros Hn; [reflexivity|].
  destruct (Z.eqb i (account_id x)) eqn:Ex.
  - apply Z.eqb_eq in Ex. destruct Hn. now left.
  - apply IH. intros Hin. apply Hn. now right.
Qed.

Lemma unique_match i l a :
  NoDup (map account_id l) ->
  find (fun b => Z.eqb (account_id b) i) l = Some a ->
  filter (fun b => Z.eqb i (account_id b)) l = [a].
Proof.
  induction l as [|h l IH]; simpl; intros Hnd Hf; [discriminate|].
  inversion Hnd as [|? ? Hnotin Hnd']; subst.
  rewrite (Z.eqb_sym i). destruct (Z.eqb (account_id h) i) eqn:E.
  - injection Hf as ->. f_equal.
    apply Z.eqb_eq in E. rewrite <- E. now apply no_match.
  - auto.
Qed.

Lemma joined_rows_of_account i s a :
  NoDup (map account_id (accounts s)) ->
  accountById i s = Some a ->
  map row (filter (fun r => Z.eqb (accountId (row r)) i) (leftJoinAccounts s))
  = filter (fun t => Z.eqb (accountId t) i) (transactions s).
Proof.
  intros Hnd Ha. unfold leftJoinAccounts.
  induction (transactions s) as [|t l IH]; [reflexivity|].
  cbn [flat_map]. rewrite filter_app, map_app, IH. clear IH.
  cbn [filter]. destruct (Z.eqb (accountId t) i) eqn:E.
  - apply Z.eqb_eq in E. rewrite E.
    rewrite (unique_match i _ a Hnd Ha). cbn [map filter row].
    rewrite E, Z.eqb_refl. reflexivity.
  - destruct (filter (fun b => Z.eqb (accountId t) (account_id b)) (accounts s))
      as [|b bs]; cbn [map filter row]; rewrite E; [reflexivity|].
    replace (filter (fun r => Z.eqb (accountId (row r)) i)
               (map (fun b0 => {| row := t;
                                  row_accountType := Some (accountType b0) |}) bs))
      with (@nil TransactionRow); [reflexivity|].
    induction bs as [|c bs IHb]; cbn [map filter row]; [reflexivity|].
    now rewrite E.
Qed.

(** The enrichment loop on a store that does not fail. *)
Lemma enrich_healthy rows s :
  enrich rows (healthy s) = (Returned (map (reEnrich s) rows), healthy s).
Proof.
  induction rows as [|r l IH]; cbn [enrich map]; [reflexivity|].
  rewrite bind_healthy_query. unfold bind at 1. now rewrite IH.
Qed.

(** C9: for an account the caller owns, [getTransactions] returns one
    row per transaction of that account and no other row, each row
    standing before every later row in the order (createdAt desc, id
    desc), and each carrying the [accountType] the account has in the
    store at the time of the call; nothing is written. *)
Theorem getTransactions_newest_first u i s a :
  NoDup (map account_id (accounts s)) ->
  NoDup (map transaction_id (transactions s)) ->
  accountByIdAndUser i (user_id u) s = Some a ->
  exists rows,
    getTransactions {| user := Some u |} i (healthy s)
    = (Returned rows, healthy s)
    /\ Permutation (map row rows)
         (filter (fun t => Z.eqb (accountId t) i) (transactions s))
    /\ StronglySorted (fun r1 r2 => newestFirst (row r1) (row r2)) rows
    /\ Forall (fun r => row_accountType r = Some (accountType a)) rows.
Proof.
  intros Hkey Htx Hacc.
  pose proof (accountById_of_owned _ _ _ _ Hkey Hacc) as Hid.
  set (selected := selectAccountTransactions i s).
  assert (Hperm : Permutation (map row selected)
            (filter (fun t => Z.eqb (accountId t) i) (transactions s))).
  { unfold selected, selectAccountTransactions.
    rewrite <- (joined_rows_of_account i s a Hkey Hid).
    apply Permutation_map, orderByNewest_perm. }
  exists (map (reEnrich s) selected). split; [|split; [|split]].
  - unfold getTransactions, protectedProcedure. cbn [user].
    rewrite bind_healthy_query, Hacc, bind_healthy_query.
    apply enrich_healthy.
  - rewrite map_map. exact Hperm.
  - apply StronglySorted_map_row; [reflexivity|].
    apply sorted_strict; [|apply orderByNewest_sorted].
    rewrite <- (map_map row transaction_id).
    apply (Permutation_NoDup (Permutation_sym (Permutation_map _ Hperm))).
    clear -Htx. induction (transactions s) as [|t l IH]; simpl; [constructor|].
    inversion Htx as [|? ? Hn Hd]; subst.
    destruct (Z.eqb (accountId t) i); simpl; auto.
    constructor; auto.
    intros Hin. apply Hn. apply in_map_iff in Hin as (x & <- & Hx).
    apply filter_In in Hx as [Hx _]. now apply in_map.
  - rewrite Forall_forall. intros r Hr.
    apply in_map_iff in Hr as (r0 & <- & Hr0).
    unfold selected, selectAccountTransactions in Hr0.
    apply (Permutation_in _ (orderByNewest_perm _)) in Hr0.
    apply filter_In in Hr0 as [_ Hi]. apply Z.eqb_eq in Hi.
    unfold reEnrich. cbn [row_accountType]. now rewrite Hi, Hid.
Qed.

End Properties.

(* ================================================================== *)
(** ** The properties at work on the small bank                        *)
(* ================================================================== *)

Ltac distinct_ids :=
  repeat (constructor; [simpl; intuition discriminate|]); constructor.

(** C1 fails on the code: when the store rejects the balance update,
    the completed deposit of 50 stays recorded and the balance of the
    account is the old 100. *)
Lemma fundAccount_not_all_or_nothing :
  fst Demo.aliceFunds = Thrown StoreFailure
  /\ In (Demo.deposit 5 1 50 Demo.now) (transactions (db (snd Demo.aliceFunds)))
  /\ accountById 1 (db (snd Demo.aliceFunds)) = Some Demo.aliceChecking
  /\ balance Demo.aliceChecking = Demo.money 100
  /\ ~ allOrNothing Demo.now (Demo.fundAlice Demo.byBank) Demo.store
         (snd Demo.aliceFunds).
Proof.
  repeat split.
  - vm_compute. tauto.
  - intros [H|H]; vm_compute in H; discriminate H.
Qed.

Lemma fundAccount_effects_by_failure_point_witness :
  num_positive (in_amount (Demo.fundAlice Demo.byBank)) = true
  /\ passesChecksumGate (in_fundingSource (Demo.fundAlice Demo.byBank))
  /\ fst Demo.aliceFunds = Thrown StoreFailure
  /\ db (snd Demo.aliceFunds)
     = snd (insertTransaction Demo.now (Demo.fundAlice Demo.byBank) Demo.store)
  /\ transactions (db (snd Demo.aliceFunds))
     = transactions Demo.store
       ++ [depositRow Demo.now (Demo.fundAlice Demo.byBank) Demo.store]
  /\ accounts (db (snd Demo.aliceFunds)) = accounts Demo.store.
Proof.
  split; [reflexivity|]. split; [now left|].
  apply (fundAccount_effects_by_failure_point
           Demo.now Demo.alice (Demo.fundAlice Demo.byBank) Demo.store
           Demo.aliceChecking [false; false; true]);
    [reflexivity | reflexivity | reflexivity | now left].
Defined.

Lemma early_expiry_error_is_swallowed_witness :
  cookieSession "theme=dark; session=alice.jwt" = Some "alice.jwt"%string
  /\ jwt_verify (Collaborators := Demo.collaborators) "alice.jwt" Demo.now
     = Some 1%Z
  /\ (1030000 - Demo.now <= earlyExpiryWindow)%Z
  /\ fst Demo.aliceValidates = Returned {| user := None |}
  /\ fst Demo.aliceValidates <> Thrown (TRPCError UNAUTHORIZED "Session expired")
  /\ sessionByToken "alice.jwt" (db (snd Demo.aliceValidates)) = None
  /\ forall later,
       createContext later "theme=dark; session=alice.jwt"
         (snd Demo.aliceValidates)
       = (Returned {| user := None |}, snd Demo.aliceValidates).
Proof.
  split; [reflexivity|]. split; [reflexivity|].
  split; [vm_compute; discriminate|].
  apply (early_expiry_error_is_swallowed
           Demo.now "theme=dark; session=alice.jwt" "alice.jwt" Demo.store
           {| session_userId := 1; token := "alice.jwt"; expiresAt := 1030000 |}
           1%Z);
    [reflexivity | discriminate | reflexivity | reflexivity
    | vm_compute; discriminate].
Defined.

Lemma fundAccount_credits_exactly_witness :
  NoDup (map account_id (accounts Demo.store))
  /\ accountByIdAndUser 1 1 Demo.store = Some Demo.aliceChecking
  /\ exists w',
       fundAccount Demo.now Demo.asAlice (Demo.fundAlice Demo.byBank)
         (healthy Demo.store)
       = (Returned {| transactionId := 5; newBalance := Demo.money 150 |}, w')
       /\ transactions (db w')
          = transactions Demo.store ++ [Demo.deposit 5 1 50 Demo.now]
       /\ accountById 1 (db w') = Some (credit (Demo.money 50) Demo.aliceChecking).
Proof.
  split; [distinct_ids|]. split; [reflexivity|].
  destruct (fundAccount_credits_exactly
              Demo.now Demo.alice (Demo.fundAlice Demo.byBank) Demo.store
              Demo.aliceChecking)
    as (w' & Hrun & _ & Htx & _ & _ & _ & _ & Hacc & _);
    [reflexivity | distinct_ids | reflexivity | reflexivity | now left |].
  exists w'. repeat split; assumption.
Defined.

Lemma login_leaves_one_session_witness :
  List.length (sessionsOf 2 Demo.store) = 2%nat
  /\ Demo.bobLogsIn
     = (Returned {| auth_user := omitPassword Demo.bob; auth_token := "bob.jwt" |},
        snd Demo.bobLogsIn)
  /\ sessionsOf 2 (db (snd Demo.bobLogsIn))
     = [{| session_userId := 2; token := "bob.jwt";
           expiresAt := (Demo.now + 604800000)%Z |}]
  /\ (List.length (sessionsOf 2 (db (snd Demo.bobLogsIn))) <= 1)%nat
  /\ sessionsOf 1 (db (snd Demo.bobLogsIn)) = sessionsOf 1 Demo.store.
Proof.
  split; [reflexivity|]. split; [reflexivity|].
  destruct (proj1 (login_leaves_one_session (C := Demo.collaborators))
              Demo.now "bob@example.com"%string "Secret#2"%string
              (healthy Demo.store)
              {| auth_user := omitPassword Demo.bob; auth_token := "bob.jwt" |}
              (snd Demo.bobLogsIn) eq_refl)
    as (Hone & Hle & _).
  split; [exact Hone|]. split; [exact Hle|]. reflexivity.
Defined.

Lemma foreign_account_is_not_found_witness :
  accountById 2 Demo.store = Some Demo.bobSavings
  /\ account_userId Demo.bobSavings <> user_id Demo.alice
  /\ fundAccount Demo.now Demo.asAlice Demo.fundBob (healthy Demo.store)
     = (Thrown (TRPCError NOT_FOUND "Account not found"), healthy Demo.store)
  /\ getTransactions Demo.asAlice 2 (healthy Demo.store)
     = (Thrown (TRPCError NOT_FOUND "Account not found"), healthy Demo.store).
Proof.
  split; [reflexivity|]. split; [discriminate|].
  destruct (foreign_account_is_not_found
              Demo.now Demo.alice Demo.fundBob Demo.store) as (Hfund & Hget & _).
  - reflexivity.
  - intros a [<-|[<-|[]]]; simpl; intros; discriminate.
  - split; [exact Hfund | exact Hget].
Defined.

(** C6 fails on the code: Bob's session ran out ten minutes ago, his
    token verifies, and validation deletes the row. *)
Lemma expired_session_row_is_deleted :
  sessionByToken "bob.jwt" Demo.store
  = Some {| session_userId := 2; token := "bob.jwt"; expiresAt := 400000 |}
  /\ (400000 < Demo.now - earlyExpiryWindow)%Z
  /\ fst Demo.bobValidates = Returned {| user := None |}
  /\ sessionByToken "bob.jwt" (db (snd Demo.bobValidates)) = None
  /\ sessions (db (snd Demo.bobValidates)) <> sessions Demo.store.
Proof.
  repeat split. intros H. vm_compute in H. discriminate H.
Qed.

Lemma expired_session_is_reaped_witness :
  cookieSession "session=bob.jwt" = Some "bob.jwt"%string
  /\ sessionByToken "bob.jwt" Demo.store
     = Some {| session_userId := 2; token := "bob.jwt"; expiresAt := 400000 |}
  /\ (400000 < Demo.now)%Z
  /\ (400000 - Demo.now <=? earlyExpiryWindow)%Z = true
  /\ Demo.bobValidates
     = (Returned {| user := None |},
        healthy (deleteSessionsByToken "bob.jwt" Demo.store)).
Proof.
  split; [reflexivity|]. split; [reflexivity|]. split; [reflexivity|].
  destruct (expired_session_is_reaped (C := Demo.collaborators)
              Demo.now "session=bob.jwt" "bob.jwt" Demo.store
              {| session_userId := 2; token := "bob.jwt"; expiresAt := 400000 |})
    as (Hwin & Hrun & _);
    [reflexivity | discriminate | reflexivity | reflexivity |].
  split; [exact Hwin | exact Hrun].
Defined.

Lemma second_createAccount_conflicts_witness :
  createAccount Demo.now ["1000000009"%string] Demo.asAlice checking
    (healthy Demo.store)
  = (Thrown (conflictError checking), healthy Demo.store)
  /\ (exists a, Demo.aliceOpensSavings = (Returned a, snd Demo.aliceOpensSavings)
                /\ accountNumber a = "1000000003"%string)
  /\ createAccount Demo.now ["1000000004"%string] Demo.asAlice savings
       (snd Demo.aliceOpensSavings)
     = (Thrown (conflictError savings), snd Demo.aliceOpensSavings)
  /\ List.length (filter (ownsType Demo.alice savings)
                    (accounts (db (snd Demo.aliceOpensSavings)))) = 1%nat.
Proof.
  split.
  - apply (proj1 (second_createAccount_conflicts Demo.alice checking)
             Demo.now ["1000000009"%string] Demo.store Demo.aliceChecking);
      [now left | reflexivity].
  - split; [eexists; split; reflexivity|].
    destruct (proj1 (proj2 (second_createAccount_conflicts Demo.alice savings))
                Demo.now ["1000000001"%string; "1000000003"%string] Demo.store
                _ (snd Demo.aliceOpensSavings)
                Demo.now ["1000000004"%string] eq_refl)
      as (Hconflict & Hone & _).
    split; [exact Hconflict | exact Hone].
Defined.

Lemma card_checksum_is_luhn_witness :
  isValidCardNumber "4532015112830367" = false
  /\ fundAccount Demo.now Demo.asAlice
       (Demo.fundAlice (Demo.byCard "4532015112830367")) (healthy Demo.store)
     = (Thrown (TRPCError BAD_REQUEST "Invalid card number"), healthy Demo.store)
  /\ exists r w',
       fundAccount Demo.now Demo.asAlice (Demo.fundAlice Demo.byBank)
         (healthy Demo.store)
       = (Returned r, w').
Proof.
  split; [reflexivity|].
  pose proof (proj2 (proj2 (proj2 (card_checksum_is_luhn (C := Demo.collaborators)))))
    as H.
  split.
  - apply (H Demo.now Demo.alice
             (Demo.fundAlice (Demo.byCard "4532015112830367")) Demo.store
             Demo.aliceChecking); reflexivity.
  - apply (H Demo.now Demo.alice (Demo.fundAlice Demo.byBank) Demo.store
             Demo.aliceChecking); reflexivity.
Defined.

Lemma getTransactions_newest_first_witness :
  exists rows,
    getTransactions Demo.asAlice 1 (healthy Demo.store)
    = (Returned rows, healthy Demo.store)
    /\ Permutation (map row rows)
         [Demo.deposit 1 1 40 100; Demo.deposit 3 1 25 300;
          Demo.deposit 4 1 35 300]
    /\ StronglySorted (fun r1 r2 => newestFirst (row r1) (row r2)) rows
    /\ Forall (fun r => row_accountType r = Some checking) rows.
Proof.
  apply (getTransactions_newest_first Demo.alice 1 Demo.store Demo.aliceChecking);
    [distinct_ids | distinct_ids | reflexivity].
Defined.

Lemma digit_free_card_passes_witness :
  isValidCardNumber "N/A" = true
  /\ exists r w',
       fundAccount Demo.now Demo.asAlice (Demo.fundAlice (Demo.byCard "N/A"))
         (healthy Demo.store)
       = (Returned r, w')
       /\ transactions (db w')
          = transactions Demo.store
            ++ [depositRow Demo.now (Demo.fundAlice (Demo.byCard "N/A"))
                  Demo.store].
Proof.
  destruct (digit_free_card_passes (C := Demo.collaborators) "N/A")
    as (Hvalid & Hfund).
  - intros c [<-|[<-|[<-|[]]]]; reflexivity.
  - split; [exact Hvalid|].
    destruct (Hfund Demo.now Demo.alice (Demo.fundAlice (Demo.byCard "N/A"))
                Demo.store Demo.aliceChecking)
      as (r & w' & Hrun & Htx); try reflexivity.
    exists r, w'. split; [exact Hrun | exact Htx].
Defined.

(* ================================================================== *)
(** ** Further properties of the routers                               *)
(* ================================================================== *)

Section FurtherProperties.

Context {C : Collaborators}.

(** *** Rules for runs under any schedule of store failures *)

Lemma triple_ret A (P : Store -> Prop) (a : A) (Q : Outcome A -> Store -> Prop) :
  (forall s, P s -> Q (Returned a) s) -> triple P (ret a) Q.
Proof. intros H w HP. now apply H. Qed.

Lemma triple_throw A (P : Store -> Prop) e (Q : Outcome A -> Store -> Prop) :
  (forall s, P s -> Q (Thrown e) s) -> triple P (throw e) Q.
Proof. intros H w HP. now apply H. Qed.

Lemma triple_spin A (P : Store -> Prop) (Q : Outcome A -> Store -> Prop) :
  (forall s, P s -> Q Spinning s) -> triple P spin Q.
Proof. intros H w HP. now apply H. Qed.

Lemma triple_weaken A (P P' : Store -> Prop) (m : M A)
    (Q Q' : Outcome A -> Store -> Prop) :
  triple P' m Q' ->
  (forall s, P s -> P' s) -> (forall o s, Q' o s -> Q o s) ->
  triple P m Q.
Proof. intros H HP HQ w Hw. apply HQ, H, HP, Hw. Qed.

Lemma triple_bind_await A B (P : Store -> Prop) (stmt : Store -> A * Store)
    (k : A -> M B) (Q : Outcome B -> Store -> Prop) :
  (forall s, P s -> Q (Thrown StoreFailure) s) ->
  (forall s0, P s0 ->
     triple (fun s => s = snd (stmt s0)) (k (fst (stmt s0))) Q) ->
  triple P (bind (await stmt) k) Q.
Proof.
  intros Hfail Hk w HP. unfold bind.
  destruct (await stmt w) as [o w1] eqn:E.
  apply await_outcome in E as [[-> Hw1]|[-> Hw1]]; cbn [fst snd].
  - exact (Hk (db w) HP w1 Hw1).
  - rewrite Hw1. now apply Hfail.
Qed.

Lemma triple_bind_query A B (P : Store -> Prop) (q : Store -> A)
    (k : A -> M B) (Q : Outcome B -> Store -> Prop) :
  (forall s, P s -> Q (Thrown StoreFailure) s) ->
  (forall s0, P s0 -> triple (fun s => s = s0) (k (q s0)) Q) ->
  triple P (bind (query q) k) Q.
Proof. intros Hfail Hk. now apply triple_bind_await. Qed.

Lemma triple_bind_exec B (P : Store -> Prop) (u : Store -> Store)
    (k : unit -> M B) (Q : Outcome B -> Store -> Prop) :
  (forall s, P s -> Q (Thrown StoreFailure) s) ->
  (forall s0, P s0 -> triple (fun s => s = u s0) (k tt) Q) ->
  triple P (bind (exec u) k) Q.
Proof. intros Hfail Hk. now apply triple_bind_await. Qed.

Lemma triple_bind A B (P : Store -> Prop) (m : M A) (k : A -> M B)
    (R : A -> Store -> Prop) (Q : Outcome B -> Store -> Prop) :
  triple P m (fun o s => match o with
                         | Returned a => R a s
                         | Thrown e => Q (Thrown e) s
                         | Spinning => Q Spinning s
                         end) ->
  (forall a, triple (R a) (k a) Q) ->
  triple P (bind m k) Q.
Proof.
  intros Hm Hk w HP. unfold bind. specialize (Hm w HP).
  destruct (m w) as [[a| |] w1]; cbn [fst snd] in *; auto.
  now apply Hk.
Qed.

Lemma triple_tryCatch A (P : Store -> Prop) (m : M A) (h : Exn -> M A)
    (R : Exn -> Store -> Prop) (Q : Outcome A -> Store -> Prop) :
  triple P m (fun o s => match o with
                         | Thrown e => R e s
                         | other => Q other s
                         end) ->
  (forall e, triple (R e) (h e) Q) ->
  triple P (tryCatch m h) Q.
Proof.
  intros Hm Hh w HP. unfold tryCatch. specialize (Hm w HP).
  destruct (m w) as [[a| |] w1]; cbn [fst snd] in *; auto.
  now apply Hh.
Qed.

Lemma triple_protected A (P : Store -> Prop) ctx (next : User -> M A)
    (Q : Outcome A -> Store -> Prop) :
  (forall s, user ctx = None -> P s ->
             Q (Thrown (TRPCError UNAUTHORIZED "UNAUTHORIZED")) s) ->
  (forall u, user ctx = Some u -> triple P (next u) Q) ->
  triple P (protectedProcedure ctx next) Q.
Proof.
  intros Hnone Hsome. unfold protectedProcedure.
  destruct (user ctx) as [u|]; [now apply Hsome|].
  apply triple_throw. intros s. now apply Hnone.
Qed.

(** *** Who a request is *)

Lemma validateSession_triple now tok s0 :
  triple (fun s => s = s0) (validateSession now tok)
    (fun o s' => match o with
                 | Returned found => contextJustified now tok s0 found s'
                 | Thrown _ => s' = s0 \/ s' = deleteSessionsByToken tok s0
                 | Spinning => False
                 end).
Proof.
  unfold validateSession.
  destruct (jwt_verify tok now) as [uid|] eqn:Hjwt;
    [|apply triple_throw; auto].
  apply triple_bind_query; [auto|]. intros ? ->.
  destruct (sessionByToken tok s0) as [sess|] eqn:Hsess;
    [|apply triple_ret; intros ? ->; now left].
  cbv zeta.
  destruct (expiresAt sess - now <=? earlyExpiryWindow)%Z eqn:Hwin.
  - apply triple_bind_exec; [auto|]. intros ? ->.
    apply triple_throw. auto.
  - apply Z.leb_gt in Hwin.
    destruct (expiresAt sess >? now)%Z;
      [|apply triple_ret; intros ? ->; now left].
    unfold query. intros w <-. unfold await.
    assert (Hfound : contextJustified now tok (db w) (userById uid (db w)) (db w)).
    { destruct (userById uid (db w)) as [u|] eqn:Hu; [|now left].
      apply find_some in Hu as [Hin Hid]. apply Z.eqb_eq in Hid.
      cbn. rewrite Hid. eauto 6. }
    destruct (faults w) as [|[|] fs]; cbn [fst snd db]; auto.
Qed.

Lemma createContext_triple now cookies s0 :
  triple (fun s => s = s0) (createContext now cookies)
    (fun o s' =>
       exists found,
         o = Returned {| user := found |}
         /\ match cookieSession cookies with
            | Some tok => contextJustified now tok s0 found s'
            | None => found = None /\ s' = s0
            end).
Proof.
  unfold createContext. cbv zeta.
  apply triple_bind with
    (R := fun found s' =>
            match cookieSession cookies with
            | Some tok => contextJustified now tok s0 found s'
            | None => found = None /\ s' = s0
            end).
  - destruct (cookieSession cookies) as [tok|]; cbn [truthy].
    + destruct tok as [|c tok].
      * apply triple_ret. intros ? ->. now left.
      * apply triple_tryCatch with
          (R := fun _ s' => s' = s0
                            \/ s' = deleteSessionsByToken (String c tok) s0).
        -- eapply triple_weaken;
             [apply (validateSession_triple now (String c tok) s0)|auto|].
           intros [found|e|] s' H; cbn in *; auto; contradiction.
        -- intros e. apply triple_ret. auto.
    + apply triple_ret. auto.
  - intros found. apply triple_ret. eauto.
Qed.

(** X1: [createContext] never throws and never loops, whatever the
    cookie header, the clock and the store (failing or not); apart from
    the session rows of the cookie's token, which it may delete, it
    leaves the store as it found it. *)
Theorem createContext_always_returns now cookies w :
  exists ctx,
    fst (createContext now cookies w) = Returned ctx
    /\ users (db (snd (createContext now cookies w))) = users (db w)
    /\ accounts (db (snd (createContext now cookies w))) = accounts (db w)
    /\ transactions (db (snd (createContext now cookies w)))
       = transactions (db w)
    /\ (sessions (db (snd (createContext now cookies w))) = sessions (db w)
        \/ exists tok,
             cookieSession cookies = Some tok
             /\ sessions (db (snd (createContext now cookies w)))
                = filter (fun r => negb (String.eqb (token r) tok))
                    (sessions (db w))).
Proof.
  destruct (createContext_triple now cookies (db w) w eq_refl)
    as (found & Ho & H).
  exists {| user := found |}. split; [exact Ho|].
  destruct (cookieSession cookies) as [tok|].
  - destruct found as [u|]; cbn in H.
    + destruct H as (_ & _ & _ & ->). auto.
    + destruct H as [->| ->]; cbn; eauto 8.
  - destruct H as [_ ->]. auto.
Qed.

(** X2: [createContext] names a user only when the cookie's token
    verifies for that very user at that time, a session row for the
    token has more than sixty seconds left, and the user is a row of
    the store; in that case it has written nothing.  This holds under
    every schedule of store failures. *)
Theorem createContext_user_is_justified now cookies w u :
  fst (createContext now cookies w) = Returned {| user := Some u |} ->
  exists tok sess,
    cookieSession cookies = Some tok
    /\ jwt_verify tok now = Some (user_id u)
    /\ sessionByToken tok (db w) = Some sess
    /\ (now + 60000 < expiresAt sess)%Z
    /\ In u (users (db w))
    /\ db (snd (createContext now cookies w)) = db w.
Proof.
  intros Hrun.
  destruct (createContext_triple now cookies (db w) w eq_refl)
    as (found & Ho & H).
  rewrite Hrun in Ho. injection Ho as <-.
  destruct (cookieSession cookies) as [tok|]; [|now destruct H].
  destruct H as (Hjwt & (sess & Hsess & Hlive) & Hin & Hdb).
  exists tok, sess. unfold earlyExpiryWindow in Hlive.
  repeat split; auto. lia.
Qed.

Lemma validateSession_live now tok uid sess u s :
  jwt_verify tok now = Some uid ->
  sessionByToken tok s = Some sess ->
  (now + 60000 < expiresAt sess)%Z ->
  userById uid s = Some u ->
  validateSession now tok (healthy s) = (Returned (Some u), healthy s).
Proof.
  intros Hjwt Hsess Hlive Hu. unfold validateSession.
  rewrite Hjwt, bind_healthy_query, Hsess. cbv zeta.
  replace (expiresAt sess - now <=? earlyExpiryWindow)%Z with false
    by (symmetry; apply Z.leb_gt; unfold earlyExpiryWindow; lia).
  replace (expiresAt sess >? now)%Z with true
    by (symmetry; apply Z.gtb_lt; lia).
  now rewrite query_healthy, Hu.
Qed.

(** X3: on a store that does not fail, a cookie whose token verifies
    for user id [uid] and whose session row has more than sixty seconds
    left yields the user row with id [uid], whoever the session row
    belongs to, and nothing is written. *)
Theorem live_session_authenticates now cookies tok uid sess u s :
  cookieSession cookies = Some tok ->
  tok <> EmptyString ->
  jwt_verify tok now = Some uid ->
  sessionByToken tok s = Some sess ->
  (now + 60000 < expiresAt sess)%Z ->
  userById uid s = Some u ->
  createContext now cookies (healthy s)
  = (Returned {| user := Some u |}, healthy s).
Proof.
  intros Hcookie Htok Hjwt Hsess Hlive Hu.
  unfold createContext.
  rewrite Hcookie, (truthy_nonempty _ Htok). cbv zeta.
  unfold bind, tryCatch.
  now rewrite (validateSession_live now tok uid sess u s Hjwt Hsess Hlive Hu).
Qed.

(** *** The cookie header *)

Lemma append_nil_r_local (s : string) : (s ++ "")%string = s.
Proof. induction s as [|c s IH]; cbn; [reflexivity|now rewrite IH]. Qed.

Lemma append_assoc_local (a b c : string) :
  (a ++ (b ++ c))%string = ((a ++ b) ++ c)%string.
Proof. induction a as [|x a IH]; cbn; [reflexivity|now rewrite IH]. Qed.

Lemma splitCookies_plain t : forall piece,
  (forall c, In c (list_ascii_of_string t) -> c <> ";"%char) ->
  splitCookies t piece = [(piece ++ t)%string].
Proof.
  induction t as [|c t IH]; intros piece Hno; cbn [splitCookies].
  - now rewrite append_nil_r_local.
  - assert (Hc : Ascii.eqb c ";" = false).
    { apply Ascii.eqb_neq. apply Hno. now left. }
    rewrite Hc. cbn [andb].
    assert (Ht : splitCookies t (piece ++ String c EmptyString)
                 = [(piece ++ String c t)%string]).
    { rewrite IH by (intros c' Hc'; apply Hno; now right).
      now rewrite <- append_assoc_local. }
    now destruct t.
Qed.

Lemma splitCookies_app n : forall h piece r,
  String.length h <= n ->
  splitCookies (h ++ String ";" (String " " r)) piece
  = splitCookies h piece ++ splitCookies r EmptyString.
Proof.
  induction n as [|n IH]; intros h piece r Hlen.
  - destruct h; [|cbn in Hlen; lia]. reflexivity.
  - destruct h as [|c [|c' h]].
    + reflexivity.
    + cbn [append splitCookies].
      replace (Ascii.eqb ";" " ") with false by reflexivity.
      rewrite andb_false_r.
      replace (Ascii.eqb ";" ";" && Ascii.eqb " " " ") with true by reflexivity.
      reflexivity.
    + cbn [append splitCookies].
      cbn [String.length] in Hlen.
      destruct (Ascii.eqb c ";" && Ascii.eqb c' " ").
      * rewrite (IH h EmptyString r) by lia. reflexivity.
      * exact (IH (String c' h) _ r ltac:(cbn [String.length]; lia)).
Qed.

Lemma fold_session_last (entries : list (string * string)) v :
  fold_left
    (fun found entry =>
       if String.eqb (fst entry) "session" then Some (snd entry) else found)
    (entries ++ [("session"%string, v)]) None
  = Some v.
Proof. now rewrite fold_left_app. Qed.

Lemma splitCookies_session tok :
  (forall c, In c (list_ascii_of_string tok) -> c <> ";"%char) ->
  splitCookies ("session=" ++ tok) EmptyString = [("session=" ++ tok)%string].
Proof.
  intros Hplain.
  apply (splitCookies_plain ("session=" ++ tok) EmptyString).
  cbn. intros c [<-|[<-|[<-|[<-|[<-|[<-|[<-|[<-|Hc]]]]]]]];
    try discriminate. now apply Hplain.
Qed.

Lemma cookieSession_of_pieces cookies pieces tok :
  splitCookies cookies EmptyString = pieces ++ [("session=" ++ tok)%string] ->
  cookieSession cookies = Some tok.
Proof.
  intros Hsplit. unfold cookieSession.
  rewrite Hsplit, filter_app, map_app.
  exact (fold_session_last _ tok).
Qed.

(** X4: a [session] cookie that stands last in the cookie header is the
    one [createContext] reads, with its whole value (further [=] signs
    included), whatever cookies stand before it, an earlier [session]
    cookie among them. *)
Theorem last_session_cookie_is_read others tok :
  (forall c, In c (list_ascii_of_string tok) -> c <> ";"%char) ->
  cookieSession ("session=" ++ tok) = Some tok
  /\ cookieSession (others ++ "; session=" ++ tok) = Some tok.
Proof.
  intros Hplain. split.
  - apply (cookieSession_of_pieces _ []).
    now apply splitCookies_session.
  - apply (cookieSession_of_pieces _ (splitCookies others EmptyString)).
    change (others ++ "; session=" ++ tok)%string
      with (others ++ String ";" (String " " ("session=" ++ tok)))%string.
    rewrite (splitCookies_app (String.length others)) by lia.
    now rewrite splitCookies_session.
Qed.

(** X5: behind a cookie header without a [session] cookie, or with an
    empty one, each protected procedure throws UNAUTHORIZED before any
    statement reaches the store. *)
Theorem request_without_session_is_refused now cookies w :
  cookieSession cookies = None \/ cookieSession cookies = Some EmptyString ->
  let refused A : Outcome A * World :=
    (Thrown (TRPCError UNAUTHORIZED "UNAUTHORIZED"), w) in
  (forall candidates t,
     bind (createContext now cookies)
       (fun ctx => createAccount now candidates ctx t) w = refused _)
  /\ bind (createContext now cookies) getAccounts w = refused _
  /\ (forall input,
        bind (createContext now cookies)
          (fun ctx => fundAccount now ctx input) w = refused _)
  /\ (forall i,
        bind (createContext now cookies)
          (fun ctx => getTransactions ctx i) w = refused _).
Proof.
  intros Hcookie.
  assert (Hctx : createContext now cookies w = (Returned {| user := None |}, w)).
  { unfold createContext. now destruct Hcookie as [-> | ->]. }
  cbv zeta. unfold bind. rewrite Hctx. now repeat split.
Qed.

(** *** What every run of a handler leaves in the store *)

Ltac from_store := let s := fresh "s" in intros s ->.

Lemma uniqueAccountNumber_triple candidates s0 :
  triple (fun s => s = s0) (uniqueAccountNumber candidates)
    (fun o s' =>
       s' = s0
       /\ match o with
          | Returned n => In n candidates /\ accountByNumber n s0 = None
          | Thrown e => e = StoreFailure
          | Spinning =>
              forall n, In n candidates -> accountByNumber n s0 <> None
          end).
Proof.
  induction candidates as [|c l IH]; cbn [uniqueAccountNumber].
  - apply triple_spin. from_store. split; [reflexivity|]. intros n [].
  - apply triple_bind_query; [auto|]. from_store.
    destruct (accountByNumber c s0) eqn:E.
    + eapply triple_weaken; [exact IH|auto|].
      intros [n|e|] s' [-> H]; split; auto.
      * destruct H. split; [now right|auto].
      * intros n [<-|Hn]; [congruence|auto].
    + apply triple_ret. from_store. split; [reflexivity|]. split; [now left|auto].
Qed.

Lemma accountByNumber_inserted now uid n t s :
  accountByNumber n s = None ->
  accountByNumber n (insertAccount now uid n t s)
  = Some (openedAccount now uid n t s).
Proof.
  intros Hfree. unfold accountByNumber, insertAccount. cbn [accounts set_accounts].
  apply find_app_last; [exact Hfree|]. cbn. apply String.eqb_refl.
Qed.

(** Every run of [createAccount]. *)
Lemma createAccount_triple now candidates ctx t s0 :
  triple (fun s => s = s0) (createAccount now candidates ctx t)
    (fun o s' =>
       match o with
       | Returned a =>
           exists u n,
             user ctx = Some u
             /\ accountByUserAndType (user_id u) t s0 = None
             /\ In n candidates /\ accountByNumber n s0 = None
             /\ a = openedAccount now (user_id u) n t s0
             /\ s' = insertAccount now (user_id u) n t s0
       | Thrown (TRPCError code _) =>
           s' = s0
           /\ (code = UNAUTHORIZED /\ user ctx = None
               \/ code = CONFLICT
                  /\ exists u a, user ctx = Some u
                       /\ accountByUserAndType (user_id u) t s0 = Some a)
       | Thrown _ =>
           s' = s0
           \/ exists u n,
                user ctx = Some u /\ accountByNumber n s0 = None
                /\ s' = insertAccount now (user_id u) n t s0
       | Spinning =>
           s' = s0 /\ forall n, In n candidates -> accountByNumber n s0 <> None
       end).
Proof.
  apply triple_protected.
  - intros s Hnone ->. auto.
  - intros u Hu.
    apply triple_bind_query; [auto|]. from_store.
    destruct (accountByUserAndType (user_id u) t s0) as [a|] eqn:Hexisting.
    + apply triple_throw. from_store. split; [reflexivity|]. right. eauto.
    + apply triple_bind with
        (R := fun n s => s = s0 /\ In n candidates /\ accountByNumber n s0 = None).
      * eapply triple_weaken;
          [apply (uniqueAccountNumber_triple candidates s0)|auto|].
        intros [n|e|] s' [-> H]; auto. subst e. now left.
      * intros n.
        apply triple_bind_exec; [intros s (-> & _); now left|].
        intros s1 (-> & Hin & Hfree).
        apply triple_bind_query; [from_store; right; eauto|]. from_store.
        rewrite (accountByNumber_inserted _ _ _ _ _ Hfree).
        apply triple_ret. from_store. exists u, n. now repeat split.
Qed.

Lemma gate_closed_or_open f :
  match fs_type f with
  | card => negb (isValidCardNumber (fs_accountNumber f))
  | bank => false
  end = false ->
  passesChecksumGate f.
Proof.
  unfold passesChecksumGate. destruct (fs_type f); [|now left].
  intros H. right. now apply negb_false_iff.
Qed.

(** Every run of [fundAccount]. *)
Lemma fundAccount_triple now ctx input s0 :
  triple (fun s => s = s0) (fundAccount now ctx input)
    (fun o s' =>
       let inserted := snd (insertTransaction now input s0) in
       let both := addToBalance (in_accountId input) (in_amount input) inserted in
       match o with
       | Returned r =>
           exists u a,
             user ctx = Some u
             /\ num_positive (in_amount input) = true
             /\ accountByIdAndUser (in_accountId input) (user_id u) s0 = Some a
             /\ status a = "active"%string
             /\ passesChecksumGate (in_fundingSource input)
             /\ transactionId r = transaction_id (depositRow now input s0)
             /\ s' = both
       | Thrown (TRPCError _ _) => s' = s0
       | Thrown _ => s' = s0 \/ s' = inserted \/ s' = both
       | Spinning => False
       end).
Proof.
  cbv zeta. apply triple_protected; [intros s _ ->; reflexivity|].
  intros u Hu.
  destruct (num_positive (in_amount input)) eqn:Hpos; cbn [negb];
    [|apply triple_throw; auto].
  apply triple_bind_query; [auto|]. from_store.
  destruct (accountByIdAndUser (in_accountId input) (user_id u) s0)
    as [a|] eqn:Hacc; [|apply triple_throw; auto].
  destruct (String.eqb (status a) "active") eqn:Hact; cbn [negb];
    [|apply triple_throw; auto].
  apply String.eqb_eq in Hact.
  destruct (match fs_type (in_fundingSource input) with
            | card => _ | bank => _ end) eqn:Hgate;
    [apply triple_throw; auto|].
  apply gate_closed_or_open in Hgate.
  apply triple_bind_await; [auto|]. from_store.
  apply triple_bind_exec; [auto|]. from_store.
  apply triple_bind_query; [auto|]. from_store.
  apply triple_ret. from_store. exists u, a. now repeat split.
Qed.

(** Every run of [login]. *)
Lemma login_triple now e pw s0 :
  triple (fun s => s = s0) (login now e pw)
    (fun o s' =>
       match o with
       | Returned r =>
           exists u,
             userByEmail e s0 = Some u
             /\ bcrypt_compare pw (password u) = true
             /\ r = {| auth_user := omitPassword u;
                       auth_token := jwt_sign (user_id u) now |}
             /\ s' = insertSession (issuedSession now (user_id u))
                       (deleteSessionsByUser (user_id u) s0)
       | Thrown (TRPCError code msg) =>
           s' = s0 /\ code = UNAUTHORIZED /\ msg = "Invalid credentials"%string
       | Thrown _ =>
           s' = s0
           \/ exists u, userByEmail e s0 = Some u
                        /\ s' = deleteSessionsByUser (user_id u) s0
       | Spinning => False
       end).
Proof.
  unfold login.
  apply triple_bind_query; [auto|]. from_store.
  destruct (userByEmail e s0) as [u|] eqn:Hu; [|apply triple_throw; auto].
  destruct (bcrypt_compare pw (password u)) eqn:Hpw; cbn [negb];
    [|apply triple_throw; auto].
  apply triple_bind_exec; [auto|]. from_store.
  apply triple_bind_exec; [from_store; right; eauto|]. from_store.
  apply triple_ret. from_store. exists u. now repeat split.
Qed.

Lemma userByEmail_inserted input h1 h2 s :
  userByEmail (in_email input) s = None ->
  bcrypt_hash (in_password input) = h1 -> bcrypt_hash (in_ssn input) = h2 ->
  userByEmail (in_email input) (insertUser input h1 h2 s)
  = Some (registeredUser input s).
Proof.
  intros Hnone <- <-. unfold userByEmail, insertUser. cbn [users set_users].
  apply find_app_last; [exact Hnone|]. cbn. apply String.eqb_refl.
Qed.

(** Every run of [signup]. *)
Lemma signup_triple now input s0 :
  triple (fun s => s = s0) (signup now input)
    (fun o s' =>
       let registered :=
         insertUser input (bcrypt_hash (in_password input))
           (bcrypt_hash (in_ssn input)) s0 in
       match o with
       | Returned r =>
           userByEmail (in_email input) s0 = None
           /\ r = {| auth_user := omitPassword (registeredUser input s0);
                     auth_token :=
                       jwt_sign (user_id (registeredUser input s0)) now |}
           /\ s' = insertSession
                     (issuedSession now (user_id (registeredUser input s0)))
                     registered
       | Thrown (TRPCError code _) =>
           s' = s0 /\ code = CONFLICT
           /\ userByEmail (in_email input) s0 <> None
       | Thrown _ => s' = s0 \/ s' = registered
       | Spinning => False
       end).
Proof.
  cbv zeta. unfold signup.
  apply triple_bind_query; [auto|]. from_store.
  destruct (userByEmail (in_email input) s0) as [existing|] eqn:Hexisting;
    [apply triple_throw; from_store; repeat split; congruence|].
  cbv zeta.
  apply triple_bind_exec; [auto|]. from_store.
  apply triple_bind_query; [auto|]. from_store.
  rewrite (userByEmail_inserted input _ _ s0 Hexisting eq_refl eq_refl).
  apply triple_bind_exec; [auto|]. from_store.
  apply triple_ret. from_store. now repeat split.
Qed.

Lemma enrich_triple rows s0 :
  triple (fun s => s = s0) (enrich rows)
    (fun o s' => s' = s0 /\ match o with
                            | Thrown e => e = StoreFailure
                            | Spinning => False
                            | Returned _ => True
                            end).
Proof.
  induction rows as [|r l IH]; cbn [enrich].
  - apply triple_ret. auto.
  - apply triple_bind_query; [auto|]. from_store.
    apply triple_bind with (R := fun _ s => s = s0).
    + eapply triple_weaken; [exact IH|auto|].
      intros [x|e|] s' [-> H]; auto; contradiction.
    + intros enriched. apply triple_ret. auto.
Qed.

(** Every run of the two reading procedures. *)
Lemma reading_triple ctx i s0 :
  triple (fun s => s = s0) (getTransactions ctx i)
    (fun o s' => s' = s0 /\ o <> Spinning)
  /\ triple (fun s => s = s0) (getAccounts ctx)
       (fun o s' => s' = s0 /\ o <> Spinning).
Proof.
  split.
  - apply triple_protected; [intros s _ ->; split; [reflexivity|discriminate]|].
    intros u Hu.
    apply triple_bind_query; [from_store; split; [reflexivity|discriminate]|].
    from_store.
    destruct (accountByIdAndUser i (user_id u) s0);
      [|apply triple_throw; from_store; split; [reflexivity|discriminate]].
    apply triple_bind_query; [from_store; split; [reflexivity|discriminate]|].
    from_store.
    eapply triple_weaken; [apply (enrich_triple _ s0)|auto|].
    intros [x|e|] s' [-> H]; split; try reflexivity; try discriminate;
      contradiction.
  - apply triple_protected; [intros s _ ->; split; [reflexivity|discriminate]|].
    intros u Hu. unfold query. intros w <-.
    unfold await. destruct (faults w) as [|[|] fs]; cbn [fst snd db];
      split; try reflexivity; discriminate.
Qed.

(** *** Keys *)

Lemma nextId_bound ids : forall x, In x ids -> (x < nextId ids)%Z.
Proof.
  unfold nextId. induction ids as [|y l IH]; intros x []; cbn [fold_right].
  - subst. lia.
  - specialize (IH x H). lia.
Qed.

Lemma nextId_fresh ids : ~ In (nextId ids) ids.
Proof. intros H. apply nextId_bound in H. lia. Qed.

Lemma accountByNumber_absent n s :
  accountByNumber n s = None -> ~ In n (map accountNumber (accounts s)).
Proof.
  unfold accountByNumber. intros Hnone Hin.
  apply in_map_iff in Hin as (a & <- & Ha).
  pose proof (find_none _ _ Hnone a Ha) as H. cbn in H.
  now rewrite String.eqb_refl in H.
Qed.

(** *** Refusals *)


(** X7: [fundAccount] on an account of the caller whose status is not
    "active" throws BAD_REQUEST "Account is not active" and writes
    nothing; the status is looked at before the card number, so this is
    the answer also for a card that would fail the checksum. *)
Theorem inactive_account_is_refused now u input s a :
  num_positive (in_amount input) = true ->
  accountByIdAndUser (in_accountId input) (user_id u) s = Some a ->
  status a <> "active"%string ->
  fundAccount now {| user := Some u |} input (healthy s)
  = (Thrown (TRPCError BAD_REQUEST "Account is not active"), healthy s).
Proof.
  intros Hpos Hacc Hstatus.
  unfold fundAccount, protectedProcedure. cbn [user].
  rewrite Hpos. cbn [negb]. rewrite bind_healthy_query, Hacc.
  now rewrite (proj2 (String.eqb_neq _ _) Hstatus).
Qed.


(** X9: a [signup] that returns has appended exactly one user row, with
    a fresh id, the email of the input, and the hashes of the password
    and of the SSN in place of their plain texts; it has appended one
    session for that user and touched nothing else.  Its answer leaves
    the password out and carries the stored SSN hash.  This holds under
    every schedule of store failures. *)
Theorem signup_registers_one_user now input w r w' :
  signup now input w = (Returned r, w') ->
  let u := registeredUser input (db w) in
  userByEmail (in_email input) (db w) = None
  /\ users (db w') = users (db w) ++ [u]
  /\ ~ In (user_id u) (map user_id (users (db w)))
  /\ password u = bcrypt_hash (in_password input)
  /\ ssn u = bcrypt_hash (in_ssn input)
  /\ sessions (db w') = sessions (db w) ++ [issuedSession now (user_id u)]
  /\ accounts (db w') = accounts (db w)
  /\ transactions (db w') = transactions (db w)
  /\ auth_user r = omitPassword u
  /\ pub_ssn (auth_user r) = bcrypt_hash (in_ssn input)
  /\ auth_token r = jwt_sign (user_id u) now.
Proof.
  intros H. cbv zeta.
  pose proof (signup_triple now input (db w) w eq_refl) as T.
  rewrite H in T. cbn [fst snd] in T. destruct T as (Hnone & -> & ->).
  repeat split; try assumption. apply nextId_fresh.
Qed.


(** X11: a [createAccount] that returns has appended exactly the row it
    returns: an active account of the caller, of the requested type,
    with balance zero, a fresh id and a number taken from the
    candidates that no account carried before; the "pending" stand-in
    of the code is never what comes back.  This holds under every
    schedule of store failures. *)
Theorem createAccount_returns_the_stored_row now candidates ctx t w a w' :
  createAccount now candidates ctx t w = (Returned a, w') ->
  exists u,
    user ctx = Some u
    /\ accounts (db w') = accounts (db w) ++ [a]
    /\ account_userId a = user_id u
    /\ accountType a = t
    /\ balance a = num_zero
    /\ status a = "active"%string
    /\ In (accountNumber a) candidates
    /\ ~ In (accountNumber a) (map accountNumber (accounts (db w)))
    /\ ~ In (account_id a) (map account_id (accounts (db w)))
    /\ users (db w') = users (db w)
    /\ sessions (db w') = sessions (db w)
    /\ transactions (db w') = transactions (db w).
Proof.
  intros H.
  pose proof (createAccount_triple now candidates ctx t (db w) w eq_refl) as T.
  rewrite H in T. cbn [fst snd] in T.
  destruct T as (u & n & Hu & _ & Hin & Hfree & -> & ->).
  exists u. repeat split; try assumption.
  - now apply accountByNumber_absent.
  - apply nextId_fresh.
Qed.

(** *** From signup to login to an authenticated request *)

Lemma signup_healthy now input s :
  userByEmail (in_email input) s = None ->
  signup now input (healthy s)
  = (Returned {| auth_user := omitPassword (registeredUser input s);
                 auth_token := jwt_sign (user_id (registeredUser input s)) now |},
     healthy (insertSession
                (issuedSession now (user_id (registeredUser input s)))
                (insertUser input (bcrypt_hash (in_password input))
                   (bcrypt_hash (in_ssn input)) s))).
Proof.
  intros Hnone. unfold signup.
  rewrite bind_healthy_query, Hnone. cbv zeta.
  rewrite bind_healthy_exec, bind_healthy_query.
  rewrite (userByEmail_inserted input _ _ s Hnone eq_refl eq_refl).
  now rewrite bind_healthy_exec.
Qed.

Lemma login_healthy now e pw s u :
  userByEmail e s = Some u ->
  bcrypt_compare pw (password u) = true ->
  login now e pw (healthy s)
  = (Returned {| auth_user := omitPassword u;
                 auth_token := jwt_sign (user_id u) now |},
     healthy (insertSession (issuedSession now (user_id u))
                (deleteSessionsByUser (user_id u) s))).
Proof.
  intros Hu Hpw. unfold login.
  rewrite bind_healthy_query, Hu, Hpw. cbn [negb].
  now rewrite !bind_healthy_exec.
Qed.

(** X12: after a [signup] that returned, a [login] with the same email
    and password returns the same user, provided the hash comparison
    accepts a password against its own hash; afterwards the user has
    exactly one session, the one this [login] issued. *)
Theorem signup_then_login now input s r w1 later :
  signup now input (healthy s) = (Returned r, w1) ->
  bcrypt_compare (in_password input) (bcrypt_hash (in_password input)) = true ->
  exists r2 w2,
    login later (in_email input) (in_password input) w1 = (Returned r2, w2)
    /\ auth_user r2 = auth_user r
    /\ sessionsOf (pub_id (auth_user r)) (db w2)
       = [issuedSession later (pub_id (auth_user r))].
Proof.
  intros Hsignup Hhash.
  pose proof (signup_triple now input s (healthy s) eq_refl) as T.
  rewrite Hsignup in T. cbn [fst snd] in T. destruct T as (Hnone & _ & _).
  rewrite (signup_healthy now input s Hnone) in Hsignup.
  injection Hsignup as <- <-.
  set (u := registeredUser input s).
  set (s1 := insertSession _ _).
  assert (Hu : userByEmail (in_email input) s1 = Some u).
  { exact (userByEmail_inserted input _ _ s Hnone eq_refl eq_refl). }
  rewrite (login_healthy later _ _ s1 u Hu Hhash).
  eexists _, _. split; [reflexivity|]. split; [reflexivity|].
  unfold sessionsOf. cbn [db healthy insertSession deleteSessionsByUser
                          set_sessions sessions auth_user omitPassword pub_id].
  now apply filter_after_delete.
Qed.

Lemma userById_of_email e s u :
  NoDup (map user_id (users s)) ->
  userByEmail e s = Some u ->
  userById (user_id u) s = Some u.
Proof.
  unfold userByEmail, userById. intros Hnd Hf.
  apply find_some in Hf as [Hin _].
  induction (users s) as [|h l IH]; [destruct Hin|].
  inversion Hnd as [|? ? Hnotin Hnd']; subst. cbn [find].
  destruct Hin as [->|Hin]; [now rewrite Z.eqb_refl|].
  destruct (Z.eqb (user_id h) (user_id u)) eqn:E; [|auto].
  apply Z.eqb_eq in E. exfalso. apply Hnotin. rewrite E. now apply in_map.
Qed.

Lemma sessionByToken_issued tok uid r l :
  token r = tok ->
  (forall x, In x l -> token x = tok -> session_userId x = uid) ->
  find (fun x => String.eqb (token x) tok)
    (filter (fun x => negb (Z.eqb (session_userId x) uid)) l ++ [r])
  = Some r.
Proof.
  intros Hr Hl. apply find_app_last; [|now rewrite Hr, String.eqb_refl].
  induction l as [|x l IH]; [reflexivity|]. cbn [filter].
  destruct (Z.eqb (session_userId x) uid) eqn:E; cbn [negb].
  - apply IH. intros y Hy. apply Hl. now right.
  - cbn [find]. destruct (String.eqb (token x) tok) eqn:Et.
    + apply String.eqb_eq in Et. apply Z.eqb_neq in E.
      destruct E. apply Hl; [now left|assumption].
    + apply IH. intros y Hy. apply Hl. now right.
Qed.

(** X13: the token a [login] returns authenticates its user in a later
    request that sends it as the [session] cookie, as long as the token
    still verifies for that user, more than sixty seconds of the
    session's seven days are left, and no session of another user
    carries the same token. *)
Theorem issued_token_authenticates now e pw s r w1 later :
  login now e pw (healthy s) = (Returned r, w1) ->
  NoDup (map user_id (users s)) ->
  auth_token r <> EmptyString ->
  (forall c, In c (list_ascii_of_string (auth_token r)) -> c <> ";"%char) ->
  jwt_verify (auth_token r) later = Some (pub_id (auth_user r)) ->
  (forall x, In x (sessions s) -> token x = auth_token r ->
             session_userId x = pub_id (auth_user r)) ->
  (later + 60000 < addSevenDays now)%Z ->
  exists u,
    userByEmail e s = Some u
    /\ omitPassword u = auth_user r
    /\ createContext later ("session=" ++ auth_token r) w1
       = (Returned {| user := Some u |}, w1).
Proof.
  intros Hlogin Hkeys Htok Hplain Hjwt Hothers Hlive.
  pose proof (login_triple now e pw s (healthy s) eq_refl) as T.
  rewrite Hlogin in T. cbn [fst snd] in T.
  destruct T as (u & Hu & Hpw & -> & _).
  rewrite (login_healthy now e pw s u Hu Hpw) in Hlogin.
  injection Hlogin as <-.
  cbn [auth_token auth_user omitPassword pub_id] in *.
  exists u. split; [exact Hu|]. split; [reflexivity|].
  unfold createContext.
  rewrite (cookieSession_of_pieces _ [] _ (splitCookies_session _ Hplain)).
  rewrite (truthy_nonempty _ Htok). cbv zeta. unfold bind, tryCatch.
  rewrite (validateSession_live later (jwt_sign (user_id u) now) (user_id u)
             (issuedSession now (user_id u)) u); [reflexivity|..].
  - exact Hjwt.
  - unfold sessionByToken.
    cbn [insertSession deleteSessionsByUser set_sessions sessions].
    now apply sessionByToken_issued.
  - exact Hlive.
  - now apply userById_of_email with e.
Qed.

(** *** The keys of the store are kept *)

Lemma NoDup_snoc A (l : list A) x : NoDup l -> ~ In x l -> NoDup (l ++ [x]).
Proof.
  intros Hl Hx. apply (Permutation_NoDup (Permutation_cons_append l x)).
  now constructor.
Qed.

Lemma wellKeyed_sessions s l : wellKeyed s -> wellKeyed (set_sessions s l).
Proof. exact (fun H => H). Qed.

Lemma wellKeyed_insertUser input h1 h2 s :
  wellKeyed s -> wellKeyed (insertUser input h1 h2 s).
Proof.
  intros (Hu & Hrest). split; [|exact Hrest].
  unfold insertUser. cbn [users set_users]. rewrite map_app.
  apply NoDup_snoc; [exact Hu|apply nextId_fresh].
Qed.

Lemma wellKeyed_insertAccount now uid n t s :
  accountByNumber n s = None ->
  wellKeyed s -> wellKeyed (insertAccount now uid n t s).
Proof.
  intros Hfree (Hu & Ha & Hn & Ht). unfold insertAccount.
  repeat split; cbn [users accounts transactions set_accounts];
    try assumption; rewrite map_app; apply NoDup_snoc; try assumption.
  - apply nextId_fresh.
  - now apply accountByNumber_absent.
Qed.

Lemma wellKeyed_insertTransaction now input s :
  wellKeyed s -> wellKeyed (snd (insertTransaction now input s)).
Proof.
  intros (Hu & Ha & Hn & Ht). unfold insertTransaction.
  repeat split; cbn [snd users accounts transactions set_transactions];
    try assumption.
  rewrite map_app. apply NoDup_snoc; [assumption|apply nextId_fresh].
Qed.

Lemma wellKeyed_addToBalance i amount s :
  wellKeyed s -> wellKeyed (addToBalance i amount s).
Proof.
  intros (Hu & Ha & Hn & Ht). unfold addToBalance.
  repeat split; cbn [users accounts transactions set_accounts];
    try assumption; rewrite map_map.
  - erewrite map_ext; [exact Ha|]. intros a. now destruct (Z.eqb _ _).
  - erewrite map_ext; [exact Hn|]. intros a. now destruct (Z.eqb _ _).
Qed.

(** X14: distinct user ids, account ids, account numbers and
    transaction ids stay distinct through every run of
    [createContext], [signup], [login], [createAccount], [getAccounts],
    [fundAccount] and [getTransactions], whether the run returns or
    throws and whatever statements the store rejects. *)
Theorem keys_stay_distinct w :
  wellKeyed (db w) ->
  (forall now cookies, wellKeyed (db (snd (createContext now cookies w))))
  /\ (forall now input, wellKeyed (db (snd (signup now input w))))
  /\ (forall now e pw, wellKeyed (db (snd (login now e pw w))))
  /\ (forall now candidates ctx t,
        wellKeyed (db (snd (createAccount now candidates ctx t w))))
  /\ (forall ctx, wellKeyed (db (snd (getAccounts ctx w))))
  /\ (forall now ctx input, wellKeyed (db (snd (fundAccount now ctx input w))))
  /\ (forall ctx i, wellKeyed (db (snd (getTransactions ctx i w)))).
Proof.
  intros Hw. split; [|split; [|split; [|split; [|split; [|split]]]]].
  - intros now cookies.
    destruct (createContext_triple now cookies (db w) w eq_refl)
      as (found & _ & H).
    destruct (cookieSession cookies) as [tok|]; [|now destruct H as [_ ->]].
    destruct found as [u|]; cbn in H.
    + now destruct H as (_ & _ & _ & ->).
    + destruct H as [->| ->]; [assumption|now apply wellKeyed_sessions].
  - intros now input.
    pose proof (signup_triple now input (db w) w eq_refl) as T.
    cbv zeta in T.
    destruct (fst (signup now input w)) as [r|[code msg| |]|];
      [destruct T as (_ & _ & ->)|destruct T as (-> & _)
      |destruct T as [->| ->]|destruct T as [->| ->]|destruct T];
      try assumption;
      try apply wellKeyed_sessions; now apply wellKeyed_insertUser.
  - intros now e pw.
    pose proof (login_triple now e pw (db w) w eq_refl) as T.
    destruct (fst (login now e pw w)) as [r|[code msg| |]|];
      [destruct T as (u & _ & _ & _ & ->)|destruct T as (-> & _)
      |destruct T as [->|(u & _ & ->)]|destruct T as [->|(u & _ & ->)]
      |destruct T];
      try assumption; repeat apply wellKeyed_sessions; assumption.
  - intros now candidates ctx t.
    pose proof (createAccount_triple now candidates ctx t (db w) w eq_refl) as T.
    destruct (fst (createAccount now candidates ctx t w))
      as [a|[code msg| |]|];
      [destruct T as (u & n & _ & _ & _ & Hfree & _ & ->)
      |destruct T as (-> & _)
      |destruct T as [->|(u & n & _ & Hfree & ->)]
      |destruct T as [->|(u & n & _ & Hfree & ->)]
      |destruct T as (-> & _)];
      try assumption; now apply wellKeyed_insertAccount.
  - intros ctx.
    now destruct (proj2 (reading_triple ctx 0%Z (db w)) w eq_refl) as [-> _].
  - intros now ctx input.
    pose proof (fundAccount_triple now ctx input (db w) w eq_refl) as T.
    cbv zeta in T.
    destruct (fst (fundAccount now ctx input w)) as [r|[code msg| |]|];
      [destruct T as (u & a & _ & _ & _ & _ & _ & _ & ->)
      |rewrite T
      |destruct T as [->|[->| ->]]|destruct T as [->|[->| ->]]
      |destruct T];
      try assumption;
      try apply wellKeyed_addToBalance; now apply wellKeyed_insertTransaction.
  - intros ctx i.
    now destruct (proj1 (reading_triple ctx i (db w)) w eq_refl) as [-> _].
Qed.

(** *** Account numbers *)


Lemma length_append_local (a b : string) :
  String.length (a ++ b) = String.length a + String.length b.
Proof. induction a as [|c a IH]; cbn; [reflexivity|now rewrite IH]. Qed.

Lemma allDigits_append a b :
  allDigits (a ++ b) = allDigits a && allDigits b.
Proof.
  unfold allDigits. induction a as [|c a IH]; cbn; [reflexivity|].
  now rewrite IH, andb_assoc.
Qed.

Lemma substring_prefix_length k : forall s,
  String.length (substring 0 k s) = Nat.min k (String.length s).
Proof.
  induction k as [|k IH]; intros [|c s]; cbn; auto.
Qed.

Lemma substring_prefix_digits k : forall s,
  allDigits s = true -> allDigits (substring 0 k s) = true.
Proof.
  unfold allDigits.
  induction k as [|k IH]; intros [|c s]; cbn; auto.
  intros H. apply andb_true_iff in H as [Hc Hs].
  now rewrite Hc, IH.
Qed.

Lemma string_of_uint_digits d :
  allDigits (DecimalString.NilEmpty.string_of_uint d) = true.
Proof. unfold allDigits. induction d; cbn; auto. Qed.

Lemma numberToString_digits num : allDigits (numberToString num) = true.
Proof.
  unfold numberToString, DecimalString.NilZero.string_of_uint.
  destruct (N.to_uint num) eqn:E; try reflexivity;
    rewrite <- E; apply string_of_uint_digits.
Qed.

Lemma numberToString_nonempty num : 1 <= String.length (numberToString num).
Proof.
  unfold numberToString, DecimalString.NilZero.string_of_uint.
  destruct (N.to_uint num); cbn; lia.
Qed.

Lemma generateAccountNumberFrom_sound draws : forall accountNumber n,
  String.length accountNumber <= 10 ->
  allDigits accountNumber = true ->
  generateAccountNumberFrom draws accountNumber = Some n ->
  String.length n = 10 /\ allDigits n = true.
Proof.
  induction draws as [|d l IH]; intros acc n Hlen Hdig;
    cbn [generateAccountNumberFrom];
    destruct (String.length acc <? 10) eqn:E;
    try discriminate;
    try (apply Nat.ltb_ge in E; intros H; injection H as <-;
         split; [lia|assumption]).
  apply IH.
  - rewrite length_append_local, substring_prefix_length.
    apply Nat.ltb_lt in E. lia.
  - rewrite allDigits_append, Hdig.
    apply substring_prefix_digits, numberToString_digits.
Qed.

Lemma generateAccountNumberFrom_returns draws : forall accountNumber,
  10 - String.length accountNumber <= List.length draws ->
  exists n, generateAccountNumberFrom draws accountNumber = Some n.
Proof.
  induction draws as [|d l IH]; intros acc Hfuel;
    cbn [generateAccountNumberFrom];
    destruct (String.length acc <? 10) eqn:E; eauto.
  - apply Nat.ltb_lt in E. cbn [List.length] in Hfuel. lia.
  - apply IH. apply Nat.ltb_lt in E. cbn [List.length] in Hfuel.
    rewrite length_append_local, substring_prefix_length.
    pose proof (numberToString_nonempty (parseHexBytes d)). lia.
Qed.

(** X15: whatever the random bytes, what [generateAccountNumber]
    returns is a string of exactly ten decimal digits, and ten draws
    are always enough for it to return (each draw adds at least one
    digit). *)
Theorem generateAccountNumber_ten_digits draws :
  (forall n, generateAccountNumber draws = Some n ->
             String.length n = 10 /\ allDigits n = true)
  /\ (10 <= List.length draws ->
      exists n, generateAccountNumber draws = Some n).
Proof.
  split.
  - intros n. apply generateAccountNumberFrom_sound; [cbn; lia|reflexivity].
  - intros H. apply generateAccountNumberFrom_returns. cbn. lia.
Qed.

(** *** The checksum *)

Lemma stripNonDigits_app a b :
  stripNonDigits (a ++ b) = stripNonDigits a ++ stripNonDigits b.
Proof.
  induction a as [|c a IH]; cbn; [reflexivity|].
  destruct (isDigit c); cbn; now rewrite IH.
Qed.

(** X16: characters that are not decimal digits play no part in the
    checksum: striking one out of a card number, wherever it stands,
    does not change the answer of [isValidCardNumber]. *)
Theorem non_digits_are_ignored a c b :
  isDigit c = false ->
  isValidCardNumber (a ++ String c b) = isValidCardNumber (a ++ b).
Proof.
  intros Hc. unfold isValidCardNumber.
  rewrite !stripNonDigits_app. cbn [stripNonDigits]. now rewrite Hc.
Qed.

Lemma luhnTotalFrom_app l1 : forall pos l2,
  luhnTotalFrom pos (l1 ++ l2)
  = luhnTotalFrom pos l1 + luhnTotalFrom (pos + List.length l1) l2.
Proof.
  induction l1 as [|d l1 IH]; intros pos l2; cbn [app luhnTotalFrom List.length].
  - now rewrite Nat.add_0_r.
  - rewrite IH. replace (S pos + List.length l1) with (pos + S (List.length l1)) by lia.
    lia.
Qed.


Lemma luhnShare_injective odd d d' :
  d <= 9 -> d' <= 9 ->
  luhnShare odd d <= 9
  /\ (luhnShare odd d = luhnShare odd d' -> d = d').
Proof.
  intros Hd Hd'. destruct odd; cbn [luhnShare]; [|lia].
  assert (E : forall x, x <= 9 ->
                decimalDigitSum (2 * x) = if x <? 5 then 2 * x else 2 * x - 9).
  { intros x Hx. do 10 (destruct x as [|x]; [reflexivity|]). lia. }
  rewrite (E d Hd), (E d' Hd').
  destruct (d <? 5) eqn:A; destruct (d' <? 5) eqn:B;
    [apply Nat.ltb_lt in A, B|apply Nat.ltb_lt in A; apply Nat.ltb_ge in B
    |apply Nat.ltb_ge in A; apply Nat.ltb_lt in B
    |apply Nat.ltb_ge in A, B]; lia.
Qed.

Lemma parseDigit_injective c c' :
  isDigit c = true -> isDigit c' = true ->
  parseDigit c = parseDigit c' -> c = c'.
Proof.
  unfold isDigit, parseDigit. intros H H' E.
  apply andb_true_iff in H as [H _], H' as [H' _].
  apply Nat.leb_le in H, H'.
  rewrite <- (ascii_nat_embedding c), <- (ascii_nat_embedding c').
  f_equal. lia.
Qed.

Lemma luhn_reference_split a c b :
  isDigit c = true ->
  exists others odd,
    forall c', isDigit c' = true ->
      luhn_reference (a ++ String c' b)
      = ((others + luhnShare odd (parseDigit c')) mod 10 =? 0).
Proof.
  intros Hc.
  set (right := rev (map parseDigit (stripNonDigits b))).
  set (left := rev (map parseDigit (stripNonDigits a))).
  exists (luhnTotalFrom 0 right
          + luhnTotalFrom (S (List.length right)) left),
         (Nat.odd (List.length right)).
  intros c' Hc'. unfold luhn_reference.
  rewrite stripNonDigits_app. cbn [stripNonDigits]. rewrite Hc'.
  rewrite map_app. cbn [map]. rewrite rev_app_distr. cbn [rev].
  rewrite <- app_assoc. cbn [app]. fold right left.
  rewrite luhnTotalFrom_app. cbn [luhnTotalFrom plus].
  unfold luhnShare. f_equal. f_equal. lia.
Qed.

(** X17: the checksum catches every single wrong digit: replacing one
    digit of a card number that passes [isValidCardNumber] by a
    different digit gives a number that fails it. *)
Theorem single_wrong_digit_is_caught a c c' b :
  isDigit c = true -> isDigit c' = true -> c <> c' ->
  isValidCardNumber (a ++ String c b) = true ->
  isValidCardNumber (a ++ String c' b) = false.
Proof.
  intros Hc Hc' Hne. rewrite !isValidCardNumber_is_luhn.
  destruct (luhn_reference_split a c b Hc) as (others & odd & Hsplit).
  rewrite (Hsplit c Hc), (Hsplit c' Hc'). intros Hvalid.
  apply Nat.eqb_eq in Hvalid. apply Nat.eqb_neq. intros Hvalid'.
  destruct (luhnShare_injective odd (parseDigit c) (parseDigit c')
              (parseDigit_le_9 c Hc) (parseDigit_le_9 c' Hc')) as [Hle Hinj].
  destruct (luhnShare_injective odd (parseDigit c') (parseDigit c)
              (parseDigit_le_9 c' Hc') (parseDigit_le_9 c Hc)) as [Hle' _].
  apply Hne, (parseDigit_injective c c' Hc Hc'), Hinj.
  set (x := luhnShare odd (parseDigit c)) in *.
  set (y := luhnShare odd (parseDigit c')) in *.
  clearbody x y. clear -Hvalid Hvalid' Hle Hle'.
  pose proof (Nat.div_mod_eq (others + x) 10).
  pose proof (Nat.div_mod_eq (others + y) 10).
  lia.
Qed.

(** *** Funding, again and again *)

Lemma find_map_kept A (p : A -> bool) (f : A -> A) l :
  (forall x, p (f x) = p x) ->
  find p (map f l) = option_map f (find p l).
Proof.
  intros Hp. induction l as [|x l IH]; cbn; [reflexivity|].
  rewrite Hp. destruct (p x); auto.
Qed.

Lemma accountByIdAndUser_addToBalance i uid amount s a :
  accountByIdAndUser i uid s = Some a ->
  accountByIdAndUser i uid (addToBalance i amount s) = Some (credit amount a).
Proof.
  intros Ha. unfold accountByIdAndUser, addToBalance in *.
  cbn [accounts set_accounts].
  rewrite find_map_kept
    by (intros x; destruct (Z.eqb (account_id x) i) eqn:E; cbn;
        rewrite ?E; reflexivity).
  rewrite Ha. cbn [option_map].
  apply find_some in Ha as [_ Hp]. apply andb_true_iff in Hp as [Hp _].
  now rewrite Hp.
Qed.

(** X18: deposits made one after the other on an active account of the
    caller all count: after the calls the balance is the old balance
    with every amount added, in the order of the calls, by the store's
    addition, and the transactions are the old ones followed by one
    completed deposit row per call, with the amounts of the calls in
    their order. *)
Theorem deposits_in_sequence_add_up calls : forall u i s a,
  NoDup (map account_id (accounts s)) ->
  accountByIdAndUser i (user_id u) s = Some a ->
  status a = "active"%string ->
  Forall (fun call =>
            in_accountId (snd call) = i
            /\ num_positive (in_amount (snd call)) = true
            /\ passesChecksumGate (in_fundingSource (snd call))) calls ->
  let amounts := map (fun call => in_amount (snd call)) calls in
  let after := db (fundInSequence calls {| user := Some u |} (healthy s)) in
  exists a' rows,
    accountByIdAndUser i (user_id u) after = Some a'
    /\ balance a' = fold_left num_add amounts (balance a)
    /\ transactions after = transactions s ++ rows
    /\ map amount rows = amounts
    /\ Forall (fun r => accountId r = i /\ type r = "deposit"%string
                        /\ transaction_status r = "completed"%string) rows.
Proof.
  induction calls as [|[now input] calls IH];
    intros u i s a Hkey Hacc Hact Hcalls; cbv zeta.
  - exists a, []. cbn. rewrite app_nil_r. repeat split; auto.
  - inversion Hcalls as [|? ? (Hi & Hpos & Hgate) Hrest]; subst.
    cbn [snd] in *. cbn [fundInSequence map fold_left snd].
    rewrite (fundAccount_healthy now u input s a Hpos Hacc Hact Hgate).
    cbv zeta. cbn [snd].
    set (s1 := addToBalance _ _ _).
    destruct (IH u (in_accountId input) s1 (credit (in_amount input) a))
      as (a' & rows & Ha' & Hbal & Htx & Hamounts & Hrows); auto.
    + unfold s1, addToBalance. cbn [accounts set_accounts insertTransaction snd
                                     set_transactions].
      rewrite map_map. erewrite map_ext; [exact Hkey|].
      intros x. now destruct (Z.eqb _ _).
    + now apply accountByIdAndUser_addToBalance.
    + exists a', (depositRow now input s :: rows).
      split; [exact Ha'|]. split; [exact Hbal|].
      split; [rewrite Htx; unfold s1; cbn; now rewrite <- app_assoc|].
      split; [cbn; now rewrite Hamounts|].
      constructor; [now repeat split|exact Hrows].
Qed.

Lemma insertOrdered_below newest rows :
  Forall (fun x => newerOrEqual x newest = false) rows ->
  fold_right insertOrdered [newest] rows
  = newest :: fold_right insertOrdered [] rows.
Proof.
  induction 1 as [|x l Hx Hl IH]; cbn [fold_right]; [reflexivity|].
  rewrite IH. cbn [insertOrdered]. now rewrite Hx.
Qed.

Lemma getTransactions_healthy u i s a :
  accountByIdAndUser i (user_id u) s = Some a ->
  getTransactions {| user := Some u |} i (healthy s)
  = (Returned (map (reEnrich s) (selectAccountTransactions i s)), healthy s).
Proof.
  intros Hacc. unfold getTransactions, protectedProcedure. cbn [user].
  rewrite bind_healthy_query, Hacc, bind_healthy_query.
  apply enrich_healthy.
Qed.

(** X19: after a [fundAccount] that returned, [getTransactions] on the
    same account lists the new deposit first, provided no transaction
    of the account carries a later [createdAt] than the clock reading
    of the deposit. *)
Theorem new_deposit_is_listed_first now u input s a r w1 :
  num_positive (in_amount input) = true ->
  NoDup (map account_id (accounts s)) ->
  accountByIdAndUser (in_accountId input) (user_id u) s = Some a ->
  status a = "active"%string ->
  passesChecksumGate (in_fundingSource input) ->
  (forall t, In t (transactions s) -> accountId t = in_accountId input ->
             (createdAt t <= now)%Z) ->
  fundAccount now {| user := Some u |} input (healthy s) = (Returned r, w1) ->
  exists older,
    getTransactions {| user := Some u |} (in_accountId input) w1
    = (Returned ({| row := depositRow now input s;
                    row_accountType := Some (accountType a) |} :: older), w1).
Proof.
  intros Hpos Hkey Hacc Hact Hgate Hclock Hrun.
  rewrite (fundAccount_healthy now u input s a Hpos Hacc Hact Hgate) in Hrun.
  cbv zeta in Hrun.
  assert (Hw1 : w1 = healthy (addToBalance (in_accountId input) (in_amount input)
                                (snd (insertTransaction now input s))))
    by congruence.
  clear Hrun. subst w1.
  set (i := in_accountId input) in *.
  set (s1 := addToBalance i (in_amount input) (snd (insertTransaction now input s))).
  assert (Hkey1 : NoDup (map account_id (accounts s1))).
  { unfold s1, addToBalance. cbn. rewrite map_map.
    erewrite map_ext; [exact Hkey|]. intros x. now destruct (Z.eqb _ _). }
  assert (Hacc1 : accountByIdAndUser i (user_id u) s1
                  = Some (credit (in_amount input) a))
    by now apply accountByIdAndUser_addToBalance.
  pose proof (accountById_of_owned _ _ _ _ Hkey1 Hacc1) as Hid1.
  rewrite (getTransactions_healthy u i s1 _ Hacc1).
  set (join := fun t : Transaction =>
         match filter (fun b => Z.eqb (accountId t) (account_id b)) (accounts s1) with
         | [] => [{| row := t; row_accountType := None |}]
         | matches =>
             map (fun b => {| row := t; row_accountType := Some (accountType b) |})
               matches
         end).
  set (newest := {| row := depositRow now input s;
                    row_accountType := Some (accountType a) |}).
  assert (Hjoin : leftJoinAccounts s1
                  = flat_map join (transactions s) ++ [newest]).
  { unfold leftJoinAccounts. fold join.
    change (transactions s1) with (transactions s ++ [depositRow now input s]).
    rewrite flat_map_app. f_equal. cbn [flat_map]. rewrite app_nil_r.
    unfold join. cbn [accountId depositRow]. fold i.
    now rewrite (unique_match i _ _ Hkey1 Hid1). }
  unfold selectAccountTransactions. rewrite Hjoin, filter_app.
  cbn [filter row accountId depositRow newest]. fold i. rewrite Z.eqb_refl.
  unfold orderByNewest. rewrite fold_right_app.
  change (fold_right insertOrdered [] [?x]) with [x].
  rewrite insertOrdered_below.
  - cbn [map]. unfold reEnrich at 1, newest.
    cbn [row accountId depositRow]. fold i. rewrite Hid1.
    cbn [option_map accountType credit]. eexists. reflexivity.
  - apply Forall_forall. intros x Hx.
    apply filter_In in Hx as [Hx Hxi]. apply Z.eqb_eq in Hxi.
    apply in_flat_map in Hx as (t & Ht & Hxt).
    assert (Hrow : row x = t).
    { unfold join in Hxt. destruct (filter _ (accounts s1)).
      - destruct Hxt as [<-|[]]. reflexivity.
      - apply in_map_iff in Hxt as (b & <- & _). reflexivity. }
    rewrite Hrow in Hxi. specialize (Hclock t Ht Hxi).
    pose proof (nextId_bound (map transaction_id (transactions s))
                  (transaction_id t) (in_map _ _ _ Ht)) as Hid.
    unfold newerOrEqual, newest. rewrite Hrow.
    cbn [row createdAt transaction_id depositRow].
    apply orb_false_iff. split.
    + rewrite Z.gtb_ltb. apply Z.ltb_ge. lia.
    + apply andb_false_iff. right. rewrite Z.geb_leb. apply Z.leb_gt. lia.
Qed.

Lemma createAccount_healthy now candidates u t s a w1 :
  createAccount now candidates {| user := Some u |} t (healthy s)
  = (Returned a, w1) ->
  exists n,
    a = openedAccount now (user_id u) n t s
    /\ w1 = healthy (insertAccount now (user_id u) n t s).
Proof.
  unfold createAccount, protectedProcedure. cbn [user].
  rewrite bind_healthy_query.
  destruct (accountByUserAndType (user_id u) t s); [discriminate|].
  intros H. apply bind_returned in H as (n & w & Hn & H).
  destruct (uniqueAccountNumber_healthy candidates s)
    as [(n' & Hr & _ & Hfree)|[Hs _]]; rewrite Hn in *; [|discriminate].
  injection Hr as -> ->.
  rewrite bind_healthy_exec, bind_healthy_query in H.
  rewrite (accountByNumber_inserted _ _ _ _ _ Hfree) in H.
  apply ret_returned in H as [<- <-]. eauto.
Qed.

(** X20: the account a [createAccount] returns is listed by
    [getAccounts] from then on, after the accounts the caller had. *)
Theorem created_account_is_listed now candidates u t s a w1 :
  createAccount now candidates {| user := Some u |} t (healthy s)
  = (Returned a, w1) ->
  getAccounts {| user := Some u |} w1
  = (Returned
       (filter (fun b => Z.eqb (account_userId b) (user_id u)) (accounts s)
        ++ [a]), w1).
Proof.
  intros Hrun.
  destruct (createAccount_healthy _ _ _ _ _ _ _ Hrun) as (n & -> & ->).
  unfold getAccounts, protectedProcedure. cbn [user].
  rewrite query_healthy. f_equal. f_equal.
  cbn [insertAccount accounts set_accounts]. rewrite filter_app.
  f_equal. cbn. now rewrite Z.eqb_refl.
Qed.

(** *** Logout *)


Lemma prefix_empty s : prefix EmptyString s = true.
Proof. now destruct s. Qed.

Lemma substring_whole t : forall k,
  String.length t <= k -> substring 0 k t = t.
Proof.
  induction t as [|c t IH]; intros [|k] H; cbn in *; try reflexivity; try lia.
  rewrite IH by lia. reflexivity.
Qed.

Lemma untilEquals_stops t1 t2 :
  noneOf "="%char t1 -> untilEquals (t1 ++ String "=" t2) = t1.
Proof.
  induction t1 as [|c t IH]; intros H; cbn [append untilEquals].
  - reflexivity.
  - rewrite (proj2 (Ascii.eqb_neq c "=")) by (apply H; now left).
    rewrite IH; [reflexivity|]. intros c' Hc'. apply H. now right.
Qed.

Lemma untilEquals_plain t : noneOf "="%char t -> untilEquals t = t.
Proof.
  induction t as [|c t IH]; intros H; cbn [untilEquals]; [reflexivity|].
  rewrite (proj2 (Ascii.eqb_neq c "=")) by (apply H; now left).
  rewrite IH; [reflexivity|]. intros c' Hc'. apply H. now right.
Qed.

Lemma secondSegment_session value :
  secondSegment ("session=" ++ value) = Some (untilEquals value).
Proof.
  unfold secondSegment. cbn [append index].
  assert (Hp : forall a rest, a <> "="%char ->
                 prefix "=" (String a rest) = false).
  { intros a rest Ha. cbn [prefix].
    destruct (ascii_dec "=" a); [congruence|reflexivity]. }
  rewrite !Hp by discriminate.
  replace (prefix "=" (String "=" value)) with true
    by (cbn; now rewrite prefix_empty).
  cbn [substring String.length]. f_equal. f_equal.
  apply substring_whole. lia.
Qed.

Lemma splitCookies_two first second :
  noneOf ";"%char first -> noneOf ";"%char second ->
  splitCookies (first ++ "; " ++ second) EmptyString = [first; second].
Proof.
  intros H1 H2.
  change (first ++ "; " ++ second)%string
    with (first ++ String ";" (String " " second))%string.
  rewrite (splitCookies_app (String.length first)) by lia.
  now rewrite (splitCookies_plain first EmptyString H1),
              (splitCookies_plain second EmptyString H2).
Qed.

Lemma noneOf_session ch tok :
  ch <> "s"%char -> ch <> "e"%char -> ch <> "i"%char -> ch <> "o"%char ->
  ch <> "n"%char -> ch <> "="%char ->
  noneOf ch tok -> noneOf ch ("session=" ++ tok).
Proof.
  intros Hs He Hi Ho Hn Heq H c. cbn.
  intros [<-|[<-|[<-|[<-|[<-|[<-|[<-|[<-|Hc]]]]]]]]; auto.
Qed.

(** X21: for a token without [;] and [=], sent as the only cookie,
    [logout] and [createContext] read the same token from the cookie
    header. *)
Theorem logout_and_createContext_read_alike tok :
  noneOf ";"%char tok -> noneOf "="%char tok ->
  logoutToken (FetchRequest (Some ("session=" ++ tok)%string)) = Some tok
  /\ cookieSession ("session=" ++ tok) = Some tok.
Proof.
  intros Hsemi Heq.
  split; [|exact (cookieSession_of_pieces _ [] _ (splitCookies_session _ Hsemi))].
  unfold logoutToken.
  rewrite (splitCookies_plain ("session=" ++ tok) EmptyString)
    by (apply noneOf_session; auto; discriminate).
  cbn [append find].
  replace (prefix "session=" _) with true by (cbn; now rewrite prefix_empty).
  change (secondSegment ("session=" ++ tok) = Some tok).
  now rewrite secondSegment_session, untilEquals_plain.
Qed.

(** X22: the two readers of the cookie header part ways on unusual
    headers.  Of two [session] cookies [logout] takes the first and
    [createContext] the last; and of a value that contains [=],
    [logout] takes what stands before the [=] while [createContext]
    takes all of it. *)
Theorem logout_and_createContext_part_ways first second :
  noneOf ";"%char first -> noneOf "="%char first -> noneOf ";"%char second ->
  (logoutToken
     (FetchRequest (Some ("session=" ++ first ++ "; session=" ++ second)%string))
   = Some first
   /\ cookieSession ("session=" ++ first ++ "; session=" ++ second)
      = Some second)
  /\ (logoutToken
        (FetchRequest (Some ("session=" ++ first ++ "=" ++ second)%string))
      = Some first
      /\ cookieSession ("session=" ++ first ++ "=" ++ second)
         = Some (first ++ "=" ++ second)%string).
Proof.
  intros Hsemi Heq Hsemi2. split; split.
  - unfold logoutToken.
    change ("session=" ++ first ++ "; session=" ++ second)%string
      with (("session=" ++ first) ++ "; " ++ ("session=" ++ second))%string.
    rewrite splitCookies_two
      by (apply noneOf_session; auto; discriminate).
    cbn [find].
    replace (prefix "session=" ("session=" ++ first)) with true
      by (cbn; now rewrite prefix_empty).
    now rewrite secondSegment_session, untilEquals_plain.
  - apply (cookieSession_of_pieces _ [("session=" ++ first)%string]).
    change ("session=" ++ first ++ "; session=" ++ second)%string
      with (("session=" ++ first) ++ "; " ++ ("session=" ++ second))%string.
    apply splitCookies_two; apply noneOf_session; auto; discriminate.
  - unfold logoutToken.
    assert (Hplain : noneOf ";"%char ("session=" ++ first ++ "=" ++ second)).
    { apply noneOf_session; try discriminate.
      intros c Hc.
      assert (E : forall a b, list_ascii_of_string (a ++ b)
                              = list_ascii_of_string a ++ list_ascii_of_string b).
      { intros x y. induction x as [|ch x IH]; cbn; [reflexivity|now rewrite IH]. }
      rewrite E in Hc. apply in_app_iff in Hc as [Hc|Hc]; [now apply Hsemi|].
      cbn in Hc. destruct Hc as [<-|Hc]; [discriminate|now apply Hsemi2]. }
    rewrite (splitCookies_plain _ EmptyString Hplain). cbn [append find].
    replace (prefix "session=" _) with true by (cbn; now rewrite prefix_empty).
    change (secondSegment ("session=" ++ (first ++ String "=" second))
            = Some first).
    now rewrite secondSegment_session, untilEquals_stops.
  - apply (cookieSession_of_pieces _ []), splitCookies_session.
    intros c Hc.
    assert (E : forall a b, list_ascii_of_string (a ++ b)
                            = list_ascii_of_string a ++ list_ascii_of_string b).
    { intros x y. induction x as [|ch x IH]; cbn; [reflexivity|now rewrite IH]. }
    rewrite E in Hc. apply in_app_iff in Hc as [Hc|Hc]; [now apply Hsemi|].
    cbn in Hc. destruct Hc as [<-|Hc]; [discriminate|now apply Hsemi2].
Qed.

Section Logout.

Variable deleteResultTruthy : nat -> bool.



(** X24: for a caller with a user in the context and a non-empty token
    in the request, [logout] on a store that does not fail deletes
    every session row of that token, whatever it then reports in
    [success] (the truthiness of what the driver returned); from then
    on [createContext] finds no user for a cookie header that carries
    the token. *)
Theorem logout_ends_the_session u req tok s :
  logoutToken req = Some tok ->
  tok <> EmptyString ->
  let after := deleteSessionsByToken tok s in
  exists r,
    logout deleteResultTruthy {| user := Some u |} req (healthy s)
    = (Returned r, healthy after)
    /\ setCookie r = clearedCookie
    /\ success r
       = deleteResultTruthy
           (List.length (filter (fun x => String.eqb (token x) tok) (sessions s)))
    /\ sessionByToken tok after = None
    /\ users after = users s /\ accounts after = accounts s
    /\ transactions after = transactions s
    /\ forall later cookies,
         cookieSession cookies = Some tok ->
         createContext later cookies (healthy after)
         = (Returned {| user := None |}, healthy after).
Proof.
  intros Htok Hne. cbv zeta. unfold logout. cbn [user].
  rewrite Htok, (truthy_nonempty _ Hne).
  rewrite bind_healthy_await. cbn [fst snd deleteSessionsByTokenCounting].
  destruct (deleteResultTruthy _) eqn:E; cbn [negb];
    eexists; (split; [reflexivity|]); cbn [setCookie success];
    repeat split; auto using sessionByToken_deleted;
    intros later cookies Hcookie;
    apply (createContext_no_session later cookies tok _ Hcookie),
          sessionByToken_deleted.
Qed.

End Logout.

Lemma find_app_none A (p : A -> bool) l l' :
  find p l = None -> find p (l ++ l') = find p l'.
Proof.
  induction l as [|x l IH]; cbn; [reflexivity|].
  destruct (p x); [discriminate|exact IH].
Qed.

(** *** The input schemas *)

Section SchemaProperties.

Variable jsLength : string -> nat.
Variable toLowerCase : string -> string.
Variable toUpperCase : string -> string.
Variable trim : string -> string.

Lemma common_passwords_are_plain :
  Forall (fun p => existsb isSpecial (list_ascii_of_string p) = false)
         commonPasswords.
Proof. repeat constructor. Qed.

(** X25: the last rule of the password schema, "Password is too
    common", never decides: a password with one of the required special
    characters is never one of the four listed passwords after
    [toLowerCase], so every password that passes the five rules before
    it passes the whole schema.  What is used of [toLowerCase] is that
    it keeps the special characters of a string. *)
Theorem common_password_rule_never_decides v :
  (forall x c, In c (list_ascii_of_string x) -> isSpecial c = true ->
               In c (list_ascii_of_string (toLowerCase x))) ->
  passwordAccepted jsLength toLowerCase v = passwordWellFormed jsLength v.
Proof.
  intros Hkeeps. unfold passwordAccepted.
  destruct (passwordWellFormed jsLength v) eqn:Hwell; [|reflexivity].
  cbn [andb]. unfold passwordNotCommon. apply negb_true_iff.
  unfold passwordWellFormed in Hwell.
  apply andb_true_iff in Hwell as [_ Hspecial].
  apply existsb_exists in Hspecial as (c & Hc & Hsp).
  specialize (Hkeeps v c Hc Hsp).
  destruct (existsb _ commonPasswords) eqn:E; [|reflexivity].
  apply existsb_exists in E as (p & Hp & Heq). apply String.eqb_eq in Heq.
  pose proof (proj1 (Forall_forall _ _) common_passwords_are_plain p Hp) as Hplain.
  rewrite <- Heq in Hplain.
  assert (Hhas : existsb isSpecial (list_ascii_of_string (toLowerCase v)) = true)
    by (apply existsb_exists; eauto).
  congruence.
Qed.

(** X26: [signup] stores the email in lower case, [login] looks the
    email up as it is sent.  So after a [signup] that returned, a
    [login] with the email as it was typed at signup, when that is not
    already in lower case and no other user carries it, is refused with
    UNAUTHORIZED "Invalid credentials" whatever the password, while the
    lower-case form finds the user. *)
Theorem login_is_case_sensitive now sent s r w1 later pw :
  signup now (signupSchemaOutput toLowerCase toUpperCase trim sent) (healthy s)
  = (Returned r, w1) ->
  toLowerCase (in_email sent) <> in_email sent ->
  userByEmail (in_email sent) s = None ->
  login later (in_email sent) pw w1
  = (Thrown (TRPCError UNAUTHORIZED "Invalid credentials"), w1)
  /\ exists u, userByEmail (toLowerCase (in_email sent)) (db w1) = Some u
               /\ omitPassword u = auth_user r.
Proof.
  intros Hsignup Hcase Hnone.
  set (input := signupSchemaOutput toLowerCase toUpperCase trim sent) in *.
  pose proof (signup_triple now input s (healthy s) eq_refl) as T.
  rewrite Hsignup in T. cbn [fst snd] in T. destruct T as (Hfree & -> & _).
  rewrite (signup_healthy now input s Hfree) in Hsignup.
  assert (Hw1 : w1 = healthy (insertSession
                  (issuedSession now (user_id (registeredUser input s)))
                  (insertUser input (bcrypt_hash (in_password input))
                     (bcrypt_hash (in_ssn input)) s))) by congruence.
  clear Hsignup. subst w1. split.
  - unfold login. rewrite bind_healthy_query.
    replace (userByEmail (in_email sent) _) with (@None User); [reflexivity|].
    symmetry. unfold userByEmail, insertSession, insertUser.
    cbn [users set_users set_sessions].
    rewrite find_app_none by exact Hnone.
    cbn. now rewrite (proj2 (String.eqb_neq _ _) Hcase).
  - exists (registeredUser input s). split; [|reflexivity].
    exact (userByEmail_inserted input _ _ s Hfree eq_refl eq_refl).
Qed.

End SchemaProperties.

End FurtherProperties.

(* ================================================================== *)
(** ** The further properties at work                                  *)
(* ================================================================== *)

Ltac plain_chars :=
  let c := fresh "c" in
  intros c; cbn;
  repeat (let H := fresh in intros [H|H]; [rewrite <- H; discriminate|revert H]);
  intros [].

Lemma createContext_user_is_justified_witness :
  fst (createContext Cases.earlier "session=alice.jwt" (healthy Demo.store))
  = Returned {| user := Some Demo.alice |}
  /\ exists tok sess,
       cookieSession "session=alice.jwt" = Some tok
       /\ jwt_verify (Collaborators := Demo.collaborators) tok Cases.earlier
          = Some (user_id Demo.alice)
       /\ sessionByToken tok Demo.store = Some sess
       /\ (Cases.earlier + 60000 < expiresAt sess)%Z
       /\ In Demo.alice (users Demo.store).
Proof.
  split; [reflexivity|].
  destruct (createContext_user_is_justified (C := Demo.collaborators)
              Cases.earlier "session=alice.jwt" (healthy Demo.store) Demo.alice
              eq_refl)
    as (tok & sess & H1 & H2 & H3 & H4 & H5 & _).
  exists tok, sess. repeat split; assumption.
Defined.

Lemma live_session_authenticates_witness :
  (Cases.earlier + 60000 < 1030000)%Z
  /\ createContext Cases.earlier "theme=dark; session=alice.jwt"
       (healthy Demo.store)
     = (Returned {| user := Some Demo.alice |}, healthy Demo.store).
Proof.
  split; [reflexivity|].
  apply (live_session_authenticates (C := Demo.collaborators)
           Cases.earlier "theme=dark; session=alice.jwt" "alice.jwt" 1%Z
           {| session_userId := 1; token := "alice.jwt"; expiresAt := 1030000 |}
           Demo.alice Demo.store);
    try reflexivity. discriminate.
Defined.

Lemma last_session_cookie_is_read_witness :
  cookieSession "session=alice.jwt" = Some "alice.jwt"%string
  /\ cookieSession ("theme=dark; session=old.jwt" ++ "; session=" ++ "alice.jwt")
     = Some "alice.jwt"%string.
Proof.
  apply (last_session_cookie_is_read "theme=dark; session=old.jwt" "alice.jwt").
  plain_chars.
Defined.

Lemma request_without_session_is_refused_witness :
  cookieSession "theme=dark" = None
  /\ bind (createContext Demo.now "theme=dark")
       (fun ctx => fundAccount Demo.now ctx (Demo.fundAlice Demo.byBank))
       Demo.updateRejected
     = (Thrown (TRPCError UNAUTHORIZED "UNAUTHORIZED"), Demo.updateRejected).
Proof.
  split; [reflexivity|].
  apply (request_without_session_is_refused (C := Demo.collaborators)
           Demo.now "theme=dark" Demo.updateRejected).
  now left.
Defined.


Lemma inactive_account_is_refused_witness :
  accountByIdAndUser 1 1 Cases.closedStore
  = Some {| account_id := 1; account_userId := 1;
            accountNumber := "1000000001"; accountType := checking;
            balance := Demo.money 100; status := "closed";
            account_createdAt := 10 |}
  /\ fundAccount Demo.now Demo.asAlice
       (Demo.fundAlice (Demo.byCard "4532015112830367"))
       (healthy Cases.closedStore)
     = (Thrown (TRPCError BAD_REQUEST "Account is not active"),
        healthy Cases.closedStore).
Proof.
  split; [reflexivity|].
  apply (inactive_account_is_refused (C := Demo.collaborators)
           Demo.now Demo.alice (Demo.fundAlice (Demo.byCard "4532015112830367"))
           Cases.closedStore
           {| account_id := 1; account_userId := 1;
              accountNumber := "1000000001"; accountType := checking;
              balance := Demo.money 100; status := "closed";
              account_createdAt := 10 |});
    [reflexivity | reflexivity | discriminate].
Defined.


Lemma signup_registers_one_user_witness :
  Cases.carolSignsUp
  = (Returned {| auth_user :=
                   {| pub_id := 3; pub_email := "carol@example.com";
                      pub_ssn := "hash:111223333";
                      pub_profile := Demo.someone |};
                 auth_token := "bob.jwt" |},
     snd Cases.carolSignsUp)
  /\ users (db (snd Cases.carolSignsUp))
     = users Demo.store
       ++ [{| user_id := 3; email := "carol@example.com";
              password := "hash:Secret#3"; ssn := "hash:111223333";
              profile := Demo.someone |}]
  /\ accounts (db (snd Cases.carolSignsUp)) = accounts Demo.store.
Proof.
  split; [reflexivity|].
  destruct (signup_registers_one_user (C := Demo.collaborators)
              Demo.now Cases.carol (healthy Demo.store) _ _ eq_refl)
    as (_ & Husers & _ & _ & _ & _ & Haccounts & _).
  split; [exact Husers | exact Haccounts].
Defined.


Lemma createAccount_returns_the_stored_row_witness :
  exists a,
    Demo.aliceOpensSavings = (Returned a, snd Demo.aliceOpensSavings)
    /\ accounts (db (snd Demo.aliceOpensSavings)) = accounts Demo.store ++ [a]
    /\ status a = "active"%string
    /\ balance a = Demo.money 0
    /\ accountNumber a = "1000000003"%string.
Proof.
  eexists. split; [reflexivity|].
  destruct (createAccount_returns_the_stored_row (C := Demo.collaborators)
              Demo.now ["1000000001"%string; "1000000003"%string] Demo.asAlice
              savings (healthy Demo.store) _ (snd Demo.aliceOpensSavings) eq_refl)
    as (u & _ & Haccounts & _ & _ & Hbalance & Hstatus & _).
  split; [exact Haccounts|]. split; [exact Hstatus|].
  split; [exact Hbalance|reflexivity].
Defined.

Lemma signup_then_login_witness :
  exists r2 w2,
    login (Demo.now + 5) "carol@example.com" "Secret#3" (snd Cases.carolSignsUp)
    = (Returned r2, w2)
    /\ pub_id (auth_user r2) = 3%Z
    /\ List.length (sessionsOf 3 (db w2)) = 1%nat.
Proof.
  destruct (signup_then_login (C := Demo.collaborators)
              Demo.now Cases.carol Demo.store _ (snd Cases.carolSignsUp)
              (Demo.now + 5)%Z eq_refl eq_refl)
    as (r2 & w2 & Hrun & Huser & Hsessions).
  exists r2, w2. split; [exact Hrun|].
  split; [now rewrite Huser|]. cbn in Hsessions. now rewrite Hsessions.
Defined.

Lemma issued_token_authenticates_witness :
  Demo.bobLogsIn
  = (Returned {| auth_user := omitPassword Demo.bob; auth_token := "bob.jwt" |},
     snd Demo.bobLogsIn)
  /\ createContext (Demo.now + 3600000) "session=bob.jwt" (snd Demo.bobLogsIn)
     = (Returned {| user := Some Demo.bob |}, snd Demo.bobLogsIn).
Proof.
  split; [reflexivity|].
  destruct (issued_token_authenticates (C := Demo.collaborators)
              Demo.now "bob@example.com" "Secret#2" Demo.store
              {| auth_user := omitPassword Demo.bob; auth_token := "bob.jwt" |}
              (snd Demo.bobLogsIn) (Demo.now + 3600000)%Z)
    as (u & Hu & _ & Hrun);
    [ reflexivity
    | repeat (constructor; [simpl; intuition discriminate|]); constructor
    | discriminate
    | plain_chars
    | reflexivity
    | intros x [<-|[<-|[<-|[]]]]; cbn; intros; try reflexivity; discriminate
    | reflexivity
    | ].
  injection Hu as <-. exact Hrun.
Defined.

Lemma keys_stay_distinct_witness :
  wellKeyed Demo.store
  /\ wellKeyed (db (snd Demo.aliceFunds))
  /\ wellKeyed (db (snd Demo.aliceOpensSavings)).
Proof.
  assert (H : wellKeyed Demo.store) by (repeat split; distinct_ids).
  split; [exact H|].
  destruct (keys_stay_distinct (C := Demo.collaborators) Demo.updateRejected H)
    as (_ & _ & _ & _ & _ & Hfund & _).
  destruct (keys_stay_distinct (C := Demo.collaborators) (healthy Demo.store) H)
    as (_ & _ & _ & Hcreate & _).
  split.
  - exact (Hfund Demo.now Demo.asAlice (Demo.fundAlice Demo.byBank)).
  - exact (Hcreate Demo.now ["1000000001"%string; "1000000003"%string]
             Demo.asAlice savings).
Defined.

Lemma generateAccountNumber_ten_digits_witness :
  generateAccountNumber Cases.draws = Some "4210995116"%string
  /\ String.length "4210995116" = 10
  /\ allDigits "4210995116" = true
  /\ exists n, generateAccountNumber (List.repeat [Byte.x00] 10) = Some n.
Proof.
  split; [reflexivity|].
  destruct (proj1 (generateAccountNumber_ten_digits Cases.draws)
              "4210995116"%string eq_refl) as [Hlen Hdigits].
  split; [exact Hlen|]. split; [exact Hdigits|].
  apply (proj2 (generateAccountNumber_ten_digits (List.repeat [Byte.x00] 10))).
  cbn. lia.
Defined.

Lemma non_digits_are_ignored_witness :
  isDigit " " = false
  /\ isValidCardNumber ("4532" ++ String " " "015112830366")
     = isValidCardNumber ("4532" ++ "015112830366").
Proof.
  split; [reflexivity|].
  apply (non_digits_are_ignored "4532" " " "015112830366"). reflexivity.
Defined.

Lemma single_wrong_digit_is_caught_witness :
  isValidCardNumber ("45320151" ++ String "1" "2830366") = true
  /\ isValidCardNumber ("45320151" ++ String "7" "2830366") = false.
Proof.
  split; [reflexivity|].
  apply (single_wrong_digit_is_caught "45320151" "1" "7" "2830366");
    [reflexivity | reflexivity | discriminate | reflexivity].
Defined.

Lemma deposits_in_sequence_add_up_witness :
  exists a' rows,
    accountByIdAndUser 1 1
      (db (fundInSequence Cases.aliceDeposits Demo.asAlice (healthy Demo.store)))
    = Some a'
    /\ balance a' = Demo.money 175
    /\ transactions
         (db (fundInSequence Cases.aliceDeposits Demo.asAlice (healthy Demo.store)))
       = transactions Demo.store ++ rows
    /\ map amount rows = [Demo.money 50; Demo.money 25].
Proof.
  destruct (deposits_in_sequence_add_up (C := Demo.collaborators)
              Cases.aliceDeposits Demo.alice 1%Z Demo.store Demo.aliceChecking)
    as (a' & rows & Ha' & Hbalance & Htx & Hamounts & _).
  - distinct_ids.
  - reflexivity.
  - reflexivity.
  - constructor; [split; [reflexivity|split; [reflexivity|now left]]|].
    constructor; [split; [reflexivity|split; [reflexivity|right; reflexivity]]|].
    constructor.
  - exists a', rows. repeat split; assumption.
Defined.

Lemma new_deposit_is_listed_first_witness :
  exists w1 older,
    fundAccount Demo.now Demo.asAlice (Demo.fundAlice Demo.byBank)
      (healthy Demo.store)
    = (Returned {| transactionId := 5; newBalance := Demo.money 150 |}, w1)
    /\ getTransactions Demo.asAlice 1 w1
       = (Returned ({| row := Demo.deposit 5 1 50 Demo.now;
                       row_accountType := Some checking |} :: older), w1).
Proof.
  exists (snd (fundAccount Demo.now Demo.asAlice (Demo.fundAlice Demo.byBank)
                 (healthy Demo.store))).
  destruct (new_deposit_is_listed_first (C := Demo.collaborators)
              Demo.now Demo.alice (Demo.fundAlice Demo.byBank) Demo.store
              Demo.aliceChecking
              {| transactionId := 5; newBalance := Demo.money 150 |}
              (snd (fundAccount Demo.now Demo.asAlice
                      (Demo.fundAlice Demo.byBank) (healthy Demo.store))))
    as (older & Hlist);
    [ reflexivity | distinct_ids | reflexivity | reflexivity | now left
    | intros t [<-|[<-|[<-|[<-|[]]]]] _; apply Z.leb_le; reflexivity
    | reflexivity
    | ].
  exists older. split; [reflexivity | exact Hlist].
Defined.

Lemma created_account_is_listed_witness :
  exists a,
    Demo.aliceOpensSavings = (Returned a, snd Demo.aliceOpensSavings)
    /\ getAccounts Demo.asAlice (snd Demo.aliceOpensSavings)
       = (Returned [Demo.aliceChecking; a], snd Demo.aliceOpensSavings).
Proof.
  eexists. split; [reflexivity|].
  exact (created_account_is_listed (C := Demo.collaborators)
           Demo.now ["1000000001"%string; "1000000003"%string] Demo.alice
           savings Demo.store _ (snd Demo.aliceOpensSavings) eq_refl).
Defined.

Lemma logout_and_createContext_read_alike_witness :
  logoutToken (FetchRequest (Some ("session=" ++ "alice.jwt")%string))
  = Some "alice.jwt"%string
  /\ cookieSession ("session=" ++ "alice.jwt") = Some "alice.jwt"%string.
Proof.
  apply (logout_and_createContext_read_alike "alice.jwt"); plain_chars.
Defined.

Lemma logout_and_createContext_part_ways_witness :
  logoutToken
    (FetchRequest (Some ("session=" ++ "old.jwt" ++ "; session=" ++ "alice.jwt")%string))
  = Some "old.jwt"%string
  /\ cookieSession ("session=" ++ "old.jwt" ++ "; session=" ++ "alice.jwt")
     = Some "alice.jwt"%string.
Proof.
  apply (logout_and_createContext_part_ways "old.jwt" "alice.jwt"); plain_chars.
Defined.

Lemma logout_ends_the_session_witness :
  exists r,
    logout Cases.objectResult Demo.asAlice
      (FetchRequest (Some "session=alice.jwt"%string)) (healthy Demo.store)
    = (Returned r, healthy (deleteSessionsByToken "alice.jwt" Demo.store))
    /\ success r = true
    /\ sessionByToken "alice.jwt" (deleteSessionsByToken "alice.jwt" Demo.store)
       = None
    /\ createContext Cases.earlier "session=alice.jwt"
         (healthy (deleteSessionsByToken "alice.jwt" Demo.store))
       = (Returned {| user := None |},
          healthy (deleteSessionsByToken "alice.jwt" Demo.store)).
Proof.
  destruct (logout_ends_the_session (C := Demo.collaborators)
              Cases.objectResult Demo.alice
              (FetchRequest (Some "session=alice.jwt"%string)) "alice.jwt"
              Demo.store)
    as (r & Hrun & _ & Hsuccess & Hgone & _ & _ & _ & Hlater);
    [reflexivity | discriminate |].
  exists r. split; [exact Hrun|]. split; [exact Hsuccess|].
  split; [exact Hgone|].
  apply Hlater. reflexivity.
Defined.

Lemma common_password_rule_never_decides_witness :
  passwordAccepted String.length Cases.lowerAscii "Password#1" = true
  /\ passwordAccepted String.length Cases.lowerAscii "PASSWORD"
     = passwordWellFormed String.length "PASSWORD".
Proof.
  assert (Hkeeps : forall x c,
            In c (list_ascii_of_string x) -> isSpecial c = true ->
            In c (list_ascii_of_string (Cases.lowerAscii x))).
  { intros x c Hc Hsp. induction x as [|h x IH]; [destruct Hc|].
    cbn [Cases.lowerAscii list_ascii_of_string].
    destruct Hc as [->|Hc]; [left|right; now apply IH].
    replace (isUpper c) with false; [reflexivity|].
    unfold isSpecial, specialCodes in Hsp. unfold isUpper.
    cbn [existsb] in Hsp.
    repeat (apply orb_true_iff in Hsp as [Hsp|Hsp];
            [apply Nat.eqb_eq in Hsp; rewrite Hsp; reflexivity|]).
    discriminate Hsp. }
  split.
  - rewrite (common_password_rule_never_decides String.length Cases.lowerAscii
               "Password#1" Hkeeps).
    reflexivity.
  - exact (common_password_rule_never_decides String.length Cases.lowerAscii
             "PASSWORD" Hkeeps).
Defined.

Lemma login_is_case_sensitive_witness :
  Cases.lowerAscii "Dave@Example.com" = "dave@example.com"%string
  /\ Cases.daveSignsUp
     = (Returned {| auth_user :=
                      {| pub_id := 3; pub_email := "dave@example.com";
                         pub_ssn := "hash:444556666";
                         pub_profile := Demo.someone |};
                    auth_token := "bob.jwt" |},
        snd Cases.daveSignsUp)
  /\ login (Demo.now + 5) "Dave@Example.com" "Secret#4" (snd Cases.daveSignsUp)
     = (Thrown (TRPCError UNAUTHORIZED "Invalid credentials"),
        snd Cases.daveSignsUp).
Proof.
  split; [reflexivity|]. split; [reflexivity|].
  destruct (login_is_case_sensitive (C := Demo.collaborators)
              Cases.lowerAscii (fun x => x) (fun x => x)
              Demo.now Cases.dave Demo.store
              {| auth_user :=
                   {| pub_id := 3; pub_email := "dave@example.com";
                      pub_ssn := "hash:444556666";
                      pub_profile := Demo.someone |};
                 auth_token := "bob.jwt" |}
              (snd Cases.daveSignsUp) (Demo.now + 5)%Z "Secret#4")
    as [Hrefused _];
    [reflexivity | discriminate | reflexivity | exact Hrefused].
Defined.
